(** * smk: sprites and shaders

    A shallow embedding of [src/smk/Sprite.cpp] and [src/smk/Shader.cpp]
    and the properties of the sprite geometry, of the shader wrappers and
    of the uniform-location cache.

    - C++ [float] and [double] arithmetic is an interface ([FloatArith]),
      instantiated with IEEE-754 binary32 and binary64 (Stdlib's
      [SpecFloat]).
    - OpenGL is a driver oracle plus a log of the calls issued; a method
      that talks to the driver runs in a small monad over that log whose
      outcome is a normal return, a C++ exception, a process exit or
      undefined behaviour. *)

From Stdlib Require Import ZArith.
From Stdlib Require Import Floats.SpecFloat.
From Stdlib Require Import Permutation.
From stdpp Require Import gmap strings list.

Local Open Scope Z_scope.

(** ** Arithmetic of [float] and [double] *)

(** The operations the two source files use on [float] and [double], with
    the conversions C++ inserts: [rectangle.left + 0.5] promotes the
    [float] to [double]; dividing by the [int] [width()] converts the
    [int] to [double]; initialising [float l] narrows the [double]. *)
Class FloatArith := {
  float : Type;
  double : Type;
  float_zero : float;
  float_one : float;
  double_half : double;
  float_of_int : Z -> float;
  double_of_int : Z -> double;
  double_of_float : float -> double;
  float_of_double : double -> float;
  float_sub : float -> float -> float;
  double_add : double -> double -> double;
  double_sub : double -> double -> double;
  double_div : double -> double -> double;
  float_is_finite : float -> bool
}.

(** The only facts about the arithmetic that the proofs use:
    [0.f + 0.5 = 0.5], [x - 0.f = x], and [x - x = 0.f] for a finite
    [x]. *)
Class FloatLaws `{FA : FloatArith} := {
  double_add_zero_half :
    double_add (double_of_float float_zero) double_half = double_half;
  float_sub_zero_r : forall x, float_sub x float_zero = x;
  float_sub_diag :
    forall x, float_is_finite x = true -> float_sub x x = float_zero
}.

(** *** IEEE-754 instance: binary32 [float], binary64 [double] *)
Module IEEE.

Definition prec32 : Z := 24.
Definition emax32 : Z := 128.
Definition prec64 : Z := 53.
Definition emax64 : Z := 1024.

(** Round a value of any binary format to the format ([prec], [emax]),
    to nearest, ties to even. *)
Definition round_to (prec emax : Z) (x : spec_float) : spec_float :=
  match x with
  | S754_finite s m e => binary_round prec emax s m e
  | _ => x
  end.

Definition of_int (prec emax : Z) (z : Z) : spec_float :=
  binary_normalize prec emax z 0 false.

Definition is_finite (x : spec_float) : bool :=
  match x with
  | S754_zero _ | S754_finite _ _ _ => true
  | S754_infinity _ | S754_nan => false
  end.

Definition half64 : spec_float := binary_normalize prec64 emax64 1 (-1) false.

#[export] Instance arith : FloatArith := {|
  float := spec_float;
  double := spec_float;
  float_zero := S754_zero false;
  float_one := of_int prec32 emax32 1;
  double_half := half64;
  float_of_int := of_int prec32 emax32;
  double_of_int := of_int prec64 emax64;
  double_of_float := round_to prec64 emax64;
  float_of_double := round_to prec32 emax32;
  float_sub := SFsub prec32 emax32;
  double_add := SFadd prec64 emax64;
  double_sub := SFsub prec64 emax64;
  double_div := SFdiv prec64 emax64;
  float_is_finite := is_finite
|}.

End IEEE.

(** ** Sprite.cpp *)

Section SpriteModel.
Context `{FA : FloatArith}.

(** [glm::vec2]: a pair of [float]s. *)
Record vec2 := Vec2 { vx : float; vy : float }.

(** Modelled from the spec: the declaration of [Vertex] (Vertex.hpp is not
    among the sources). Section 3: a position [(x,y)] in object space and
    a texture coordinate [(u,v)]; the braces [{{x, y}, {u, v}}] of
    Sprite.cpp fill them in this order. *)
Record Vertex := MkVertex { position : vec2; uv : vec2 }.

(** [VertexArray(std::vector<Vertex>)]: the geometry is the sequence of
    vertices, in insertion order. *)
Definition VertexArray := list Vertex.

(** Modelled from the spec: [Texture] (Texture.hpp is not among the
    sources) exposes [width()] and [height()] in pixels, as [int]s, and a
    GPU sampler handle. *)
Record Texture := MkTexture {
  tex_id : Z;
  tex_width : Z;
  tex_height : Z
}.

(** Framebuffer.hpp: the public [color_texture] and the private
    [render_buffer_]. *)
Record Framebuffer := MkFramebuffer {
  color_texture : Texture;
  render_buffer_ : Z
}.

(** Modelled from the spec: [Rectangle] (Rectangle.hpp is not among the
    sources). Sprite.cpp reads the members [left], [right], [top] and
    [bottom] by name; section 3 gives the struct as
    [{left, right, top, bottom}] with [width() = right - left] and
    [height() = bottom - top]. The members are declared here in the
    order of section 3. *)
Record Rectangle := MkRectangle {
  rect_left : float;
  rect_right : float;
  rect_top : float;
  rect_bottom : float
}.

Definition Rectangle_width (r : Rectangle) : float :=
  float_sub (rect_right r) (rect_left r).
Definition Rectangle_height (r : Rectangle) : float :=
  float_sub (rect_bottom r) (rect_top r).

(** The state of a [Sprite] that Sprite.cpp reads and writes: the
    [const Texture*] kept by [Transformable::SetTexture] ([None] is the
    null pointer of a default-constructed sprite) and the vertex array
    kept by [SetVertexArray]. *)
Record Sprite := MkSprite {
  texture_ : option Texture;
  vertex_array_ : VertexArray
}.

(** [Sprite()]: no texture, empty geometry. *)
Definition Sprite_default : Sprite :=
  {| texture_ := None; vertex_array_ := [] |}.

Definition SetTexture (texture : Texture) (self : Sprite) : Sprite :=
  {| texture_ := Some texture; vertex_array_ := vertex_array_ self |}.

Definition SetVertexArray (va : VertexArray) (self : Sprite) : Sprite :=
  {| texture_ := texture_ self; vertex_array_ := va |}.

(** The initialiser list shared by [SetTextureRectangle] and
    [Sprite(const Framebuffer&)], rows in source order; [uv0] is the
    texture coordinate written on the rows at position [(0,0)], [uv1] on
    the row at [(0,hhh)], [uv2] on the rows at [(www,hhh)] and [uv3] on
    the row at [(www,0)]. *)
Definition six_vertices (www hhh : float) (uv0 uv1 uv2 uv3 : vec2)
  : VertexArray :=
  [ MkVertex (Vec2 float_zero float_zero) uv0;
    MkVertex (Vec2 float_zero hhh) uv1;
    MkVertex (Vec2 www hhh) uv2;
    MkVertex (Vec2 float_zero float_zero) uv0;
    MkVertex (Vec2 www hhh) uv2;
    MkVertex (Vec2 www float_zero) uv3 ].

(** [float x = (e + 0.5) / n] and [float x = (e - 0.5) / n] with [e] a
    [float] and [n] an [int]: computed in [double], narrowed on
    initialisation. *)
Definition plus_half_over (e : float) (n : Z) : float :=
  float_of_double
    (double_div (double_add (double_of_float e) double_half)
                (double_of_int n)).
Definition minus_half_over (e : float) (n : Z) : float :=
  float_of_double
    (double_div (double_sub (double_of_float e) double_half)
                (double_of_int n)).

(** [Sprite::SetTextureRectangle]. [texture()->width()] dereferences the
    sprite's texture pointer: the result is [None] (undefined behaviour)
    on a null pointer. *)
Definition SetTextureRectangle (rectangle : Rectangle) (self : Sprite)
  : option Sprite :=
  tex ← texture_ self;
  let l := plus_half_over (rect_left rectangle) (tex_width tex) in
  let r := minus_half_over (rect_right rectangle) (tex_width tex) in
  let t := plus_half_over (rect_top rectangle) (tex_height tex) in
  let b := minus_half_over (rect_bottom rectangle) (tex_height tex) in
  let www := Rectangle_width rectangle in
  let hhh := Rectangle_height rectangle in
  Some (SetVertexArray
          (six_vertices www hhh (Vec2 l t) (Vec2 l b) (Vec2 r b) (Vec2 r t))
          self).

(** Modelled from the spec: the braced initialiser [{a, b, c, d}] of a
    [Rectangle] (Rectangle.hpp is not among the sources). Aggregate
    initialisation fills the members in the order of their declaration,
    which section 3 gives as left, right, top, bottom. *)
Definition Rectangle_braces (a b c d : float) : Rectangle :=
  {| rect_left := a; rect_right := b; rect_top := c; rect_bottom := d |}.

(** [Sprite::Sprite(const Texture&)]. *)
Definition Sprite_of_texture (texture : Texture) : option Sprite :=
  let self := SetTexture texture Sprite_default in
  SetTextureRectangle
    (Rectangle_braces float_zero float_zero
                      (float_of_int (tex_width texture))
                      (float_of_int (tex_height texture)))
    self.

(** [Sprite::Sprite(const Texture&, const Rectangle)]. *)
Definition Sprite_of_texture_rectangle (texture : Texture)
  (rectangle : Rectangle) : option Sprite :=
  let self := SetTexture texture Sprite_default in
  SetTextureRectangle rectangle self.

(** [Sprite::Sprite(const Framebuffer&)]. *)
Definition Sprite_of_framebuffer (framebuffer : Framebuffer) : Sprite :=
  let self := SetTexture (color_texture framebuffer) Sprite_default in
  let l := float_zero in
  let r := float_one in
  let t := float_zero in
  let b := float_one in
  let www := float_of_int (tex_width (color_texture framebuffer)) in
  let hhh := float_of_int (tex_height (color_texture framebuffer)) in
  SetVertexArray
    (six_vertices www hhh (Vec2 l b) (Vec2 l t) (Vec2 r t) (Vec2 r b))
    self.

End SpriteModel.

(** ** The OpenGL driver, the streams and the file system *)

Definition GLuint := Z.
Definition GLint := Z.
Definition GLenum := Z.
Definition GLsizei := Z.
Definition GLboolean := Z.

(** Constants of the OpenGL and C headers (not among the sources), with
    their standard values. *)
Definition GL_FALSE : Z := 0.
Definition GL_TRUE : Z := 1.
Definition GL_INVALID_OPERATION : Z := 0x0502.
Definition GL_FLOAT : Z := 0x1406.
Definition GL_COMPILE_STATUS : Z := 0x8B81.
Definition GL_LINK_STATUS : Z := 0x8B82.
Definition GL_INFO_LOG_LENGTH : Z := 0x8B84.
Definition GL_FRAGMENT_SHADER : Z := 0x8B30.
Definition GL_VERTEX_SHADER : Z := 0x8B31.
Definition EXIT_FAILURE : Z := 1.

(** The conversion of a [GLint] to the 32-bit unsigned [GLuint] that a
    call inserts when it passes one for the other. *)
Definition GLuint_of_GLint (x : GLint) : GLuint := x mod 2 ^ 32.

Definition newline : string := String (Ascii.ascii_of_nat 10) EmptyString.
Definition NUL : Ascii.ascii := Ascii.ascii_of_nat 0.

(** The text a [const char*] denotes: the characters before the first
    NUL of the buffer it points into. *)
Fixpoint c_str (buffer : string) : string :=
  match buffer with
  | EmptyString => EmptyString
  | String c rest =>
      if Ascii.eqb c NUL then EmptyString else String c (c_str rest)
  end.

Section GLModel.
Context `{FA : FloatArith}.

(** What a [SetUniform] overload hands to the driver. Vectors and
    matrices are the floats [value_ptr] points to. *)
Inductive UniformValue :=
| Uniform3f (x y z : float)
| Uniform3fv (v : list float)
| Uniform4fv (v : list float)
| UniformMatrix4fv (m : list float)
| UniformMatrix3fv (m : list float)
| Uniform1f (val : float)
| Uniform1i (val : Z).

(** The driver entry points Shader.cpp calls, with their arguments. *)
Inductive GLCall :=
| glCreateShader (type : GLenum)
| glShaderSource (shader : GLuint) (text : string)
| glCompileShader (shader : GLuint)
| glGetShaderiv (shader : GLuint) (pname : GLenum)
| glGetShaderInfoLog (shader : GLuint) (bufSize : GLsizei)
| glDeleteShader (shader : GLuint)
| glCreateProgram
| glAttachShader (program shader : GLuint)
| glLinkProgram (program : GLuint)
| glGetProgramiv (program : GLuint) (pname : GLenum)
| glGetProgramInfoLog (program : GLuint) (bufSize : GLsizei)
| glGetUniformLocation (program : GLuint) (name : string)
| glGetAttribLocation (program : GLuint) (name : string)
| glEnableVertexAttribArray (index : GLuint)
| glVertexAttribPointer (index : GLuint) (size : GLint) (type : GLenum)
    (normalized : GLboolean) (stride : GLsizei) (pointer : GLuint)
| glUniform (location : GLint) (value : UniformValue)
| glDeleteProgram (program : GLuint)
| glUseProgram (program : GLuint).

(** The world outside the objects: the driver calls issued so far (oldest
    first), the lines written to [std::cout] and [std::cerr], and the
    paths that can be opened for reading: [Some content] for a file that
    reads as [content], [None] for a path that opens and cannot be read
    (a directory). A path that is not in the map cannot be opened. *)
Record World := MkWorld {
  gl_log : list GLCall;
  cout : list string;
  cerr : list string;
  files : gmap string (option string)
}.

(** The driver: what each entry point that returns something answers,
    as a function of the calls issued before it. *)
Record Driver := MkDriver {
  drv_CreateShader : list GLCall -> GLenum -> GLuint;
  drv_GetShaderiv : list GLCall -> GLuint -> GLenum -> GLint;
  drv_GetShaderInfoLog : list GLCall -> GLuint -> GLsizei -> string;
  drv_CreateProgram : list GLCall -> GLuint;
  drv_GetProgramiv : list GLCall -> GLuint -> GLenum -> GLint;
  drv_GetProgramInfoLog : list GLCall -> GLuint -> GLsizei -> string;
  drv_GetUniformLocation : list GLCall -> GLuint -> string -> GLint;
  drv_GetAttribLocation : list GLCall -> GLuint -> string -> GLint
}.

(** How a computation ends: it returns, it throws an exception ([what]
    is the text of its [what()]), it calls [exit] with a status, or it
    runs into undefined behaviour. *)
Inductive Outcome (A : Type) :=
| Returned (a : A)
| Thrown (what : string)
| Exited (status : Z)
| Undefined.
Arguments Returned {A} a.
Arguments Thrown {A} what.
Arguments Exited {A} status.
Arguments Undefined {A}.

Definition GLM (A : Type) : Type := World -> Outcome A * World.

Definition glm_ret {A} (a : A) : GLM A := fun w => (Returned a, w).

Definition glm_bind {A B} (m : GLM A) (k : A -> GLM B) : GLM B :=
  fun w =>
    match m w with
    | (Returned a, w') => k a w'
    | (Thrown what, w') => (Thrown what, w')
    | (Exited status, w') => (Exited status, w')
    | (Undefined, w') => (Undefined, w')
    end.

(** An exception leaves the computation; [throw std::runtime_error(what)]
    is the one the source writes out. *)
Definition throw {A} (what : string) : GLM A :=
  fun w => (Thrown what, w).

Definition throw_runtime_error {A} (what : string) : GLM A :=
  throw what.

Definition exit {A} (status : Z) : GLM A :=
  fun w => (Exited status, w).

Definition undefined {A} : GLM A :=
  fun w => (Undefined, w).

Definition log_call (c : GLCall) (w : World) : World :=
  {| gl_log := gl_log w ++ [c]; cout := cout w; cerr := cerr w;
     files := files w |}.

(** A driver call without a result, and one whose result the driver
    computes from the calls before it. *)
Definition gl_do (c : GLCall) : GLM unit :=
  fun w => (Returned tt, log_call c w).

Definition gl_ask {A} (c : GLCall) (answer : list GLCall -> A) : GLM A :=
  fun w => (Returned (answer (gl_log w)), log_call c w).

(** [std::cout << line << std::endl] and the same on [std::cerr]. *)
Definition cout_line (line : string) : GLM unit :=
  fun w => (Returned tt,
            {| gl_log := gl_log w; cout := cout w ++ [line];
               cerr := cerr w; files := files w |}).

Definition cerr_line (line : string) : GLM unit :=
  fun w => (Returned tt,
            {| gl_log := gl_log w; cout := cout w;
               cerr := cerr w ++ [line]; files := files w |}).

(** What [std::ios_base::failure] (a [std::runtime_error], through
    [std::system_error]) says when libstdc++ throws it from the stream
    buffer. *)
Definition ios_failure_what : string :=
  "basic_filebuf::underflow error reading the file".

(** [std::ifstream file(filename)] read to the end through
    [std::istreambuf_iterator]: the content of the file; no character at
    all when the file cannot be opened (the stream buffer is closed and
    the iterator is at its end at once); and, under libstdc++, an
    exception out of the stream buffer when the path opens and the read
    fails. *)
Definition read_file (filename : string) : GLM string :=
  fun w =>
    match files w !! filename with
    | None => (Returned EmptyString, w)
    | Some (Some content) => (Returned content, w)
    | Some None => (Thrown ios_failure_what, w)
    end.

End GLModel.

Arguments Returned {A} a.
Arguments Thrown {A} what.
Arguments Exited {A} status.
Arguments Undefined {A}.

Declare Scope glm_scope.
Delimit Scope glm_scope with glm.
Notation "x <- m ;; k" := (glm_bind m (fun x => k))
  (at level 100, m at next level, right associativity) : glm_scope.
Notation "m ;;; k" := (glm_bind m (fun _ => k))
  (at level 100, right associativity) : glm_scope.

(** ** Shader.cpp: [Shader] *)

Module Shader.
Section Methods.
Context `{FA : FloatArith}.
(** Whether the build defines [__EMSCRIPTEN__], and the driver. *)
Variable EMSCRIPTEN : bool.
Variable drv : Driver.

Local Open Scope glm_scope.

Definition shader_header : string :=
  if EMSCRIPTEN then
    ("#version 300 es" +:+ newline +:+
     "precision mediump float;" +:+ newline +:+
     "precision mediump int;" +:+ newline +:+
     "precision mediump sampler2DArray;" +:+ newline)%string
  else
    ("#version 330" +:+ newline)%string.

(** The one data member. Modelled from the spec: Shader.hpp is not among
    the sources; a wrapper without a GPU object holds the handle zero
    (section 5, and the comment on [GetHandle]), which is what
    [Shader() = default] leaves in [handle_]. *)
Record t := Make { handle_ : GLuint }.

Definition default : t := {| handle_ := 0 |}.

Definition GetHandle (self : t) : GLuint := handle_ self.

Definition error_create : string :=
  "[Error] Impossible to create a new Shader".

(** [Shader::Shader(std::vector<char> content, GLenum type)]. *)
Definition construct (content : string) (type : GLenum) : GLM t :=
  handle <- gl_ask (glCreateShader type) (fun h => drv_CreateShader drv h type) ;;
  if handle =? 0 then
    cerr_line error_create ;;;
    throw_runtime_error error_create
  else
    let shaderText := c_str content in
    gl_do (glShaderSource handle shaderText) ;;;
    gl_do (glCompileShader handle) ;;;
    compile_status <-
      gl_ask (glGetShaderiv handle GL_COMPILE_STATUS)
             (fun h => drv_GetShaderiv drv h handle GL_COMPILE_STATUS) ;;
    if negb (compile_status =? GL_TRUE) then
      logsize <-
        gl_ask (glGetShaderiv handle GL_INFO_LOG_LENGTH)
               (fun h => drv_GetShaderiv drv h handle GL_INFO_LOG_LENGTH) ;;
      log <-
        gl_ask (glGetShaderInfoLog handle logsize)
               (fun h => drv_GetShaderInfoLog drv h handle logsize) ;;
      cout_line "[Error] compilation error: " ;;;
      cout_line log ;;;
      exit EXIT_FAILURE
    else
      glm_ret {| handle_ := handle |}.

(** [Shader::FromString]: the header, the content and a final NUL. *)
Definition FromString (content : string) (type : GLenum) : GLM t :=
  let buffer :=
    (shader_header +:+ content +:+ String NUL EmptyString)%string in
  construct buffer type.

(** [Shader::FromFile]. *)
Definition FromFile (filename : string) (type : GLenum) : GLM t :=
  content <- read_file filename ;;
  FromString content type.

(** [Shader::~Shader]; the result is the object as the destructor leaves
    it. *)
Definition destroy (self : t) : GLM t :=
  if handle_ self =? 0 then glm_ret self
  else
    gl_do (glDeleteShader (handle_ self)) ;;;
    glm_ret {| handle_ := 0 |}.

(** [Shader::operator=(Shader&&)]: [std::swap] of the handles. The result
    is the pair (this, other) after the assignment. *)
Definition move_assign (self other : t) : t * t :=
  ({| handle_ := handle_ other |}, {| handle_ := handle_ self |}).

(** [Shader::Shader(Shader&&)]: the new object starts from the default
    member initialiser and is then move-assigned from [other]. *)
Definition move_construct (other : t) : t * t :=
  move_assign default other.

End Methods.
End Shader.

(** ** Shader.cpp: [ShaderProgram] *)

Module ShaderProgram.
Section Methods.
Context `{FA : FloatArith}.
Variable drv : Driver.

Local Open Scope glm_scope.

(** The data members: the program handle and [uniforms_], the
    [std::map<std::string, GLint>] of the locations already resolved.
    [ShaderProgram() = default] leaves the handle zero and the map
    empty. *)
Record t := Make {
  handle_ : GLuint;
  uniforms_ : gmap string GLint
}.

Definition default : t := {| handle_ := 0; uniforms_ := ∅ |}.

Definition GetHandle (self : t) : GLuint := handle_ self.

(** Every method below returns the object as the call leaves it, next to
    its C++ result when it has one. *)

(** [ShaderProgram::AddShader]. *)
Definition AddShader (shader : Shader.t) (self : t) : GLM t :=
  self' <-
    (if handle_ self =? 0 then
       handle <- gl_ask glCreateProgram (fun h => drv_CreateProgram drv h) ;;
       (if handle =? 0 then cerr_line Shader.error_create
        else glm_ret tt) ;;;
       glm_ret {| handle_ := handle; uniforms_ := uniforms_ self |}
     else glm_ret self) ;;
  gl_do (glAttachShader (handle_ self') (Shader.GetHandle shader)) ;;;
  glm_ret self'.

(** What [std::bad_array_new_length] says. *)
Definition bad_array_new_length_what : string := "std::bad_array_new_length".

(** [ShaderProgram::Link]. [result] is what the test reads after
    [glGetProgramiv]: the driver's answer. On a link error the info log
    goes through [char* log = new char[logsize]]: a negative [logsize]
    makes the new-expression throw; otherwise the driver writes its text
    and a final NUL into the [logsize] characters, and nothing at all
    into an array of length zero, so that [std::cout << log] then reads
    an array without a NUL: undefined behaviour. For a positive
    [logsize] the line printed is the text the driver wrote. *)
Definition Link (self : t) : GLM t :=
  gl_do (glLinkProgram (handle_ self)) ;;;
  result <-
    gl_ask (glGetProgramiv (handle_ self) GL_LINK_STATUS)
           (fun h => drv_GetProgramiv drv h (handle_ self) GL_LINK_STATUS) ;;
  if negb (result =? GL_TRUE) then
    cout_line "[Error] linkage error" ;;;
    logsize <-
      gl_ask (glGetProgramiv (handle_ self) GL_INFO_LOG_LENGTH)
             (fun h =>
                drv_GetProgramiv drv h (handle_ self) GL_INFO_LOG_LENGTH) ;;
    if logsize <? 0 then throw bad_array_new_length_what
    else
      log <-
        gl_ask (glGetProgramInfoLog (handle_ self) logsize)
               (fun h => drv_GetProgramInfoLog drv h (handle_ self) logsize) ;;
      if 0 <? logsize then
        cout_line log ;;;
        glm_ret self
      else undefined
  else glm_ret self.

Definition error_uniform (name : string) : string :=
  ("[Error] Uniform " +:+ name +:+ " doesn't exist in program")%string.

Definition error_attribute (name : string) : string :=
  ("[Error] Attribute " +:+ name +:+ " doesn't exist in program")%string.

(** [ShaderProgram::Uniform]. The driver is given [name.c_str()]; a name
    is taken to hold no NUL, so that text is the name itself. *)
Definition Uniform (name : string) (self : t) : GLM (GLint * t) :=
  match uniforms_ self !! name with
  | None =>
      r <- gl_ask (glGetUniformLocation (handle_ self) name)
                  (fun h => drv_GetUniformLocation drv h (handle_ self) name) ;;
      (if (r =? GL_INVALID_OPERATION) || (r <? 0)
       then cerr_line (error_uniform name)
       else glm_ret tt) ;;;
      glm_ret (r, {| handle_ := handle_ self;
                     uniforms_ := <[name := r]> (uniforms_ self) |})
  | Some second => glm_ret (second, self)
  end.

(** [ShaderProgram::Attribute]. *)
Definition Attribute (name : string) (self : t) : GLM (GLint * t) :=
  attrib <- gl_ask (glGetAttribLocation (handle_ self) name)
                   (fun h => drv_GetAttribLocation drv h (handle_ self) name) ;;
  (if (attrib =? GL_INVALID_OPERATION) || (attrib <? 0)
   then cerr_line (error_attribute name)
   else glm_ret tt) ;;;
  glm_ret (attrib, self).

(** [ShaderProgram::SetAttribute], the six-argument overload. [loc] is a
    [GLint]; both driver entry points take the index as a [GLuint]. *)
Definition SetAttribute (name : string) (size : GLint) (stride : GLsizei)
  (offset : GLuint) (normalize : GLboolean) (type : GLenum) (self : t)
  : GLM t :=
  found <- Attribute name self ;;
  let (loc, self') := found in
  gl_do (glEnableVertexAttribArray (GLuint_of_GLint loc)) ;;;
  gl_do (glVertexAttribPointer (GLuint_of_GLint loc) size type normalize
           stride offset) ;;;
  glm_ret self'.

(** The three shorter overloads of [SetAttribute]. *)
Definition SetAttribute_normalize (name : string) (size : GLint)
  (stride : GLsizei) (offset : GLuint) (normalize : GLboolean) (self : t)
  : GLM t :=
  SetAttribute name size stride offset normalize GL_FLOAT self.

Definition SetAttribute_type (name : string) (size : GLint)
  (stride : GLsizei) (offset : GLuint) (type : GLenum) (self : t) : GLM t :=
  SetAttribute name size stride offset GL_FALSE type self.

Definition SetAttribute_float (name : string) (size : GLint)
  (stride : GLsizei) (offset : GLuint) (self : t) : GLM t :=
  SetAttribute name size stride offset GL_FALSE GL_FLOAT self.

(** The seven overloads of [ShaderProgram::SetUniform]: each resolves the
    location with [Uniform] and uploads; [value] tells which overload. *)
Definition SetUniform (name : string) (value : UniformValue) (self : t)
  : GLM t :=
  found <- Uniform name self ;;
  let (loc, self') := found in
  gl_do (glUniform loc value) ;;;
  glm_ret self'.

(** [ShaderProgram::~ShaderProgram]. *)
Definition destroy (self : t) : GLM t :=
  if handle_ self =? 0 then glm_ret self
  else
    gl_do (glDeleteProgram (handle_ self)) ;;;
    glm_ret {| handle_ := 0; uniforms_ := uniforms_ self |}.

(** [ShaderProgram::Use] and [ShaderProgram::Unuse]. *)
Definition Use (self : t) : GLM t :=
  gl_do (glUseProgram (handle_ self)) ;;; glm_ret self.

Definition Unuse (self : t) : GLM t :=
  gl_do (glUseProgram 0) ;;; glm_ret self.

(** [ShaderProgram::operator=(ShaderProgram&&)]: [std::swap] of the
    handles and of the caches; the result is (this, other). *)
Definition move_assign (self other : t) : t * t :=
  ({| handle_ := handle_ other; uniforms_ := uniforms_ other |},
   {| handle_ := handle_ self; uniforms_ := uniforms_ self |}).

(** [ShaderProgram::ShaderProgram(ShaderProgram&&)]. *)
Definition move_construct (other : t) : t * t :=
  move_assign default other.

End Methods.
End ShaderProgram.

(** ** The life of a [ShaderProgram]: any sequence of method calls *)

Section ProgramLife.
Context `{FA : FloatArith}.
Variable drv : Driver.

Local Open Scope glm_scope.

(** One call of a public method of [ShaderProgram] on an object. *)
Inductive Op :=
| OpAddShader (shader : Shader.t)
| OpLink
| OpUniform (name : string)
| OpAttribute (name : string)
| OpSetAttribute (name : string) (size : GLint) (stride : GLsizei)
    (offset : GLuint) (normalize : GLboolean) (type : GLenum)
| OpSetUniform (name : string) (value : UniformValue)
| OpUse
| OpUnuse.

Definition run_op (op : Op) (self : ShaderProgram.t) : GLM ShaderProgram.t :=
  match op with
  | OpAddShader shader => ShaderProgram.AddShader drv shader self
  | OpLink => ShaderProgram.Link drv self
  | OpUniform name =>
      found <- ShaderProgram.Uniform drv name self ;; glm_ret (snd found)
  | OpAttribute name =>
      found <- ShaderProgram.Attribute drv name self ;; glm_ret (snd found)
  | OpSetAttribute name size stride offset normalize type =>
      ShaderProgram.SetAttribute drv name size stride offset normalize type
        self
  | OpSetUniform name value => ShaderProgram.SetUniform drv name value self
  | OpUse => ShaderProgram.Use self
  | OpUnuse => ShaderProgram.Unuse self
  end.

Fixpoint run_ops (ops : list Op) (self : ShaderProgram.t)
  : GLM ShaderProgram.t :=
  match ops with
  | [] => glm_ret self
  | op :: rest => self' <- run_op op self ;; run_ops rest self'
  end.

(** Does the call resolve the uniform [name]? [Uniform] does, and so does
    [SetUniform], through [Uniform]. *)
Definition resolves (name : string) (op : Op) : bool :=
  match op with
  | OpUniform n | OpSetUniform n _ => String.eqb n name
  | _ => false
  end.

(** Is the driver call a [glGetUniformLocation] of [name]; a
    [glGetAttribLocation] of [name]? *)
Definition is_uniform_query (name : string) (c : GLCall) : bool :=
  match c with
  | glGetUniformLocation _ n => String.eqb n name
  | _ => false
  end.

Definition is_attrib_query (name : string) (c : GLCall) : bool :=
  match c with
  | glGetAttribLocation _ n => String.eqb n name
  | _ => false
  end.

(** The count of a call-count-instrumented driver stub. *)
Definition count_calls (p : GLCall -> bool) (w : World) : nat :=
  length (List.filter p (gl_log w)).

End ProgramLife.

(** ** Wrappers of a GPU handle, and the objects of a program run *)

(** What [Shader] and [ShaderProgram] share: a handle, the state
    [= default] leaves, move assignment (the pair is (this, other) after
    it), the destructor, and the driver call that releases a handle. *)
Class GpuWrapper `{FA : FloatArith} (T : Type) := {
  gw_handle : T -> GLuint;
  gw_default : T;
  gw_move_assign : T -> T -> T * T;
  gw_destroy : T -> GLM T;
  gw_release : GLuint -> GLCall;
  gw_is_release : GLCall -> option GLuint
}.

#[export] Instance Shader_wrapper `{FA : FloatArith} : GpuWrapper Shader.t := {|
  gw_handle := Shader.handle_;
  gw_default := Shader.default;
  gw_move_assign := Shader.move_assign;
  gw_destroy := Shader.destroy;
  gw_release := glDeleteShader;
  gw_is_release := fun c =>
    match c with glDeleteShader h => Some h | _ => None end
|}.

#[export] Instance ShaderProgram_wrapper `{FA : FloatArith}
  : GpuWrapper ShaderProgram.t := {|
  gw_handle := ShaderProgram.handle_;
  gw_default := ShaderProgram.default;
  gw_move_assign := ShaderProgram.move_assign;
  gw_destroy := ShaderProgram.destroy;
  gw_release := glDeleteProgram;
  gw_is_release := fun c =>
    match c with glDeleteProgram h => Some h | _ => None end
|}.

Section Objects.
Context `{FA : FloatArith} {T : Type} `{GW : !GpuWrapper T}.

Local Open Scope glm_scope.

(** The move constructor of both classes: move assignment into a
    default-initialised object. *)
Definition gw_move_construct (other : T) : T * T :=
  gw_move_assign gw_default other.

(** The wrappers alive in a program run are the elements of a list; a
    move names its operands by position. [a = std::move(b)] is
    [MoveAssign a b]; [T c(std::move(b))] is [MoveConstruct b] and the new
    object is put at the end. A move that names no live object is
    skipped, and [a = std::move(a)] swaps a handle with itself. *)
Inductive Move :=
| MoveAssign (dst src : nat)
| MoveConstruct (src : nat).

Definition run_move (m : Move) (objs : list T) : list T :=
  match m with
  | MoveAssign dst src =>
      match objs !! dst, objs !! src with
      | Some this, Some other =>
          if decide (dst = src) then objs
          else
            let (this', other') := gw_move_assign this other in
            <[src := other']> (<[dst := this']> objs)
      | _, _ => objs
      end
  | MoveConstruct src =>
      match objs !! src with
      | Some other =>
          let (new, other') := gw_move_construct other in
          <[src := other']> objs ++ [new]
      | None => objs
      end
  end.

Definition run_moves (ms : list Move) (objs : list T) : list T :=
  foldl (fun objs m => run_move m objs) objs ms.

(** The end of the run: every object is destroyed, in list order. *)
Fixpoint destroy_all (objs : list T) : GLM unit :=
  match objs with
  | [] => glm_ret tt
  | o :: rest => gw_destroy o ;;; destroy_all rest
  end.

(** The handles the driver was asked to release, oldest first. *)
Definition released (log : list GLCall) : list GLuint :=
  omap gw_is_release log.

End Objects.

(** ** What a run leaves behind *)

(** The worlds and counts the properties below are stated with. *)
Section Observations.
Context `{FA : FloatArith}.
Variable drv : Driver.

(** The driver calls of a constructor run that reaches the compile
    status check, for the shader object [handle]. *)
Definition compile_calls (type : GLenum) (handle : GLuint) (text : string)
  : list GLCall :=
  [glCreateShader type; glShaderSource handle text; glCompileShader handle].

(** The world after the constructor found the object could not be
    created. *)
Definition world_create_failed (type : GLenum) (w : World) : World :=
  {| gl_log := gl_log w ++ [glCreateShader type];
     cout := cout w;
     cerr := cerr w ++ [Shader.error_create];
     files := files w |}.

(** The world after the constructor found a compile error on the
    object [handle]. *)
Definition world_compile_failed (type : GLenum) (handle : GLuint)
  (text : string) (w : World) : World :=
  let log0 := gl_log w ++ compile_calls type handle text in
  let log1 := log0 ++ [glGetShaderiv handle GL_COMPILE_STATUS] in
  let logsize := drv_GetShaderiv drv log1 handle GL_INFO_LOG_LENGTH in
  let log2 := log1 ++ [glGetShaderiv handle GL_INFO_LOG_LENGTH] in
  {| gl_log := log2 ++ [glGetShaderInfoLog handle logsize];
     cout := cout w ++ ["[Error] compilation error: ";
                        drv_GetShaderInfoLog drv log2 handle logsize];
     cerr := cerr w;
     files := files w |}.

(** The world after [Link] on the program [handle] found a link error. *)
Definition world_link_failed (handle : GLuint) (w : World) : World :=
  let log1 := gl_log w ++ [glLinkProgram handle;
                           glGetProgramiv handle GL_LINK_STATUS] in
  let logsize := drv_GetProgramiv drv log1 handle GL_INFO_LOG_LENGTH in
  let log2 := log1 ++ [glGetProgramiv handle GL_INFO_LOG_LENGTH] in
  {| gl_log := log2 ++ [glGetProgramInfoLog handle logsize];
     cout := cout w ++ ["[Error] linkage error";
                        drv_GetProgramInfoLog drv log2 handle logsize];
     cerr := cerr w;
     files := files w |}.

(** The length the driver reports for the info log of [handle] after a
    failed [Link] that started in [w]. *)
Definition link_log_length (handle : GLuint) (w : World) : GLsizei :=
  drv_GetProgramiv drv
    (gl_log w ++ [glLinkProgram handle; glGetProgramiv handle GL_LINK_STATUS])
    handle GL_INFO_LOG_LENGTH.

(** The world in which [Link] reads the array of length zero. *)
Definition world_link_undefined (handle : GLuint) (w : World) : World :=
  let log1 := gl_log w ++ [glLinkProgram handle;
                           glGetProgramiv handle GL_LINK_STATUS] in
  let logsize := link_log_length handle w in
  {| gl_log := log1 ++ [glGetProgramiv handle GL_INFO_LOG_LENGTH;
                        glGetProgramInfoLog handle logsize];
     cout := cout w ++ ["[Error] linkage error"];
     cerr := cerr w;
     files := files w |}.

(** A driver that has an info log for every link it reports as failed:
    whenever its answer to [GL_LINK_STATUS] after [glLinkProgram] is not
    [GL_TRUE], its answer to [GL_INFO_LOG_LENGTH] right after is
    positive. *)
Definition logs_failed_links : Prop :=
  forall (history : list GLCall) (program : GLuint),
    drv_GetProgramiv drv (history ++ [glLinkProgram program]) program
      GL_LINK_STATUS <> GL_TRUE ->
    0 < drv_GetProgramiv drv
          (history ++ [glLinkProgram program;
                       glGetProgramiv program GL_LINK_STATUS])
          program GL_INFO_LOG_LENGTH.

(** The world after a first lookup that the driver answered with
    [location]. *)
Definition world_queried (call : GLCall) (location : GLint)
  (message : string) (w : World) : World :=
  {| gl_log := gl_log w ++ [call];
     cout := cout w;
     cerr := cerr w ++
             (if (location =? GL_INVALID_OPERATION) || (location <? 0)
              then [message] else []);
     files := files w |}.

(** What a method call does to the cache entry of [name]: an entry stays;
    a missing entry is filled, with the driver's answer, by a call that
    resolves [name], and by no other call. *)
Definition cache_after (name : string) (op : Op) (self : ShaderProgram.t)
  (w : World) : option GLint :=
  match ShaderProgram.uniforms_ self !! name with
  | Some location => Some location
  | None =>
      if resolves name op
      then Some (drv_GetUniformLocation drv (gl_log w)
                   (ShaderProgram.handle_ self) name)
      else None
  end.

(** The number of [glGetUniformLocation] calls for [name] that a method
    call issues. *)
Definition queries_of (name : string) (op : Op) (self : ShaderProgram.t)
  : nat :=
  match ShaderProgram.uniforms_ self !! name with
  | Some _ => 0
  | None => if resolves name op then 1 else 0
  end.

End Observations.

(** What the proofs use of a wrapper: [= default] leaves the handle
    zero, move assignment exchanges the handles, the destructor asks the
    driver to release a non-zero handle and does nothing for zero. *)
Class GpuWrapperLaws `{FA : FloatArith} (T : Type) `{GW : !GpuWrapper T} := {
  gw_default_handle : gw_handle gw_default = 0;
  gw_move_assign_this :
    forall this other : T,
      gw_handle (fst (gw_move_assign this other)) = gw_handle other;
  gw_move_assign_other :
    forall this other : T,
      gw_handle (snd (gw_move_assign this other)) = gw_handle this;
  gw_destroy_run :
    forall (o : T) (w : World),
      exists o',
        gw_destroy o w =
        (Returned o',
         if decide (gw_handle o = 0) then w
         else log_call (gw_release (gw_handle o)) w);
  gw_is_release_release :
    forall h, gw_is_release (gw_release h) = Some h
}.

Section LiveHandles.
Context `{FA : FloatArith} {T : Type} `{GW : !GpuWrapper T}.

(** The handles a list of objects will release: the non-zero ones. *)
Definition live (objs : list T) : list GLuint :=
  filter (fun h => h <> 0) (gw_handle <$> objs).

End LiveHandles.

(** ** Further observations on a run *)

Section MoreObservations.
Context `{FA : FloatArith}.

(** No NUL among the characters of a string. *)
Fixpoint NUL_free (s : string) : bool :=
  match s with
  | EmptyString => true
  | String c rest => negb (Ascii.eqb c NUL) && NUL_free rest
  end.

(** The arguments of the [glUseProgram] calls of a log, oldest first. *)
Definition bound_programs (log : list GLCall) : list GLuint :=
  omap (fun c => match c with glUseProgram p => Some p | _ => None end) log.

Definition is_AddShader (op : Op) : bool :=
  match op with OpAddShader _ => true | _ => false end.

(** What a method call asks [glUseProgram] to bind. *)
Definition binds (op : Op) (self : ShaderProgram.t) : list GLuint :=
  match op with
  | OpUse => [ShaderProgram.handle_ self]
  | OpUnuse => [0]
  | _ => []
  end.

End MoreObservations.

(** ** Several [ShaderProgram] objects: method calls and moves *)

Section ProgramHeap.
Context `{FA : FloatArith}.
Variable drv : Driver.

Local Open Scope glm_scope.

(** The names a method call hands to the driver as [name.c_str()]. *)
Definition op_names (op : Op) : list string :=
  match op with
  | OpUniform name | OpAttribute name | OpSetUniform name _
  | OpSetAttribute name _ _ _ _ _ => [name]
  | OpAddShader _ | OpLink | OpUse | OpUnuse => []
  end.

(** No name in [ops] holds a NUL: the driver receives each name whole. *)
Definition names_NUL_free (ops : list Op) : bool :=
  forallb (fun op => forallb NUL_free (op_names op)) ops.

(** One step of a run over the [ShaderProgram] objects of a program: a
    method call on the object at position [i], or a move between
    objects. A call that names no live object is skipped. *)
Inductive Step :=
| Call (i : nat) (op : Op)
| Moved (m : Move).

Definition run_step (step : Step) (objs : list ShaderProgram.t)
  : GLM (list ShaderProgram.t) :=
  match step with
  | Call i op =>
      match objs !! i with
      | Some self =>
          self' <- run_op drv op self ;; glm_ret (<[i := self']> objs)
      | None => glm_ret objs
      end
  | Moved m => glm_ret (run_move m objs)
  end.

Fixpoint run_steps (steps : list Step) (objs : list ShaderProgram.t)
  : GLM (list ShaderProgram.t) :=
  match steps with
  | [] => glm_ret objs
  | step :: rest => objs' <- run_step step objs ;; run_steps rest objs'
  end.

(** The method calls of a run, in order. *)
Definition step_ops (steps : list Step) : list Op :=
  omap (fun step => match step with Call _ op => Some op | Moved _ => None end)
       steps.

(** Does the cache of [self] hold an entry for [name]? *)
Definition holds (name : string) (self : ShaderProgram.t) : bool :=
  match ShaderProgram.uniforms_ self !! name with
  | Some _ => true
  | None => false
  end.

(** The number of objects whose cache holds an entry for [name]. *)
Definition holders (name : string) (objs : list ShaderProgram.t) : nat :=
  length (List.filter (holds name) objs).

End ProgramHeap.

(** ** Concrete inputs *)

Module Sample.

(** binary32 values: an [int] converted to [float], and m * 2^e. *)
Definition f32 (z : Z) : @float IEEE.arith :=
  IEEE.of_int IEEE.prec32 IEEE.emax32 z.
Definition dyadic (m e : Z) : @float IEEE.arith :=
  binary_normalize IEEE.prec32 IEEE.emax32 m e false.

(** A 4 x 4 texture, a sprite on it, the rectangle of its top-left
    2 x 2 pixels and a rectangle of zero width. *)
Definition texture_4x4 : Texture := MkTexture 7 4 4.

Definition sprite_4x4 : @Sprite IEEE.arith :=
  SetTexture texture_4x4 Sprite_default.

Definition rect_2x2 : @Rectangle IEEE.arith :=
  {| rect_left := f32 0; rect_right := f32 2;
     rect_top := f32 0; rect_bottom := f32 2 |}.

Definition rect_flat : @Rectangle IEEE.arith :=
  {| rect_left := f32 3; rect_right := f32 3;
     rect_top := f32 0; rect_bottom := f32 9 |}.

(** A 128 x 64 texture and the framebuffer that has it as its colour
    output. *)
Definition texture_128x64 : Texture := MkTexture 9 128 64.

Definition framebuffer_128x64 : Framebuffer :=
  {| color_texture := texture_128x64; render_buffer_ := 1 |}.


End Sample.

(** A driver stub and a world to run the shader code in. *)
Module SampleGL.

(** The stub hands out the shader and program handles it is told to,
    reports the compile and link status it is told to, and answers a
    location query with the number of driver calls made before it, or
    with -1 for the name [nowhere]. *)
Definition stub (shader program : GLuint) (compile_status link_status : GLint)
  : @Driver IEEE.arith :=
  {| drv_CreateShader := fun _ _ => shader;
     drv_GetShaderiv := fun _ _ pname =>
       if pname =? GL_COMPILE_STATUS then compile_status else 18;
     drv_GetShaderInfoLog := fun _ _ _ => "0:1: syntax error";
     drv_CreateProgram := fun _ => program;
     drv_GetProgramiv := fun _ _ pname =>
       if pname =? GL_LINK_STATUS then link_status else 15;
     drv_GetProgramInfoLog := fun _ _ _ => "no vertex shader";
     drv_GetUniformLocation := fun history _ name =>
       if String.eqb name "nowhere" then -1
       else Z.of_nat (length history);
     drv_GetAttribLocation := fun history _ name =>
       if String.eqb name "nowhere" then -1
       else Z.of_nat (length history) |}.

Definition world0 : @World IEEE.arith :=
  {| gl_log := []; cout := []; cerr := [];
     files := {[ "quad.vert" := Some "void main() {}";
                 "shaders" := None ]} |}.

Definition program5 : ShaderProgram.t :=
  {| ShaderProgram.handle_ := 5; ShaderProgram.uniforms_ := ∅ |}.

End SampleGL.

(** More inputs: a texture without width, a shader text with a NUL
    inside, and a program that has resolved one uniform. *)
Module SampleMore.

Definition texture_0x4 : Texture := MkTexture 8 0 4.

Definition sprite_0x4 : @Sprite IEEE.arith :=
  SetTexture texture_0x4 Sprite_default.

Definition text_with_NUL : string :=
  ("void main() {}" +:+ String NUL "never compiled")%string.

Definition program_with_color : ShaderProgram.t :=
  {| ShaderProgram.handle_ := 6;
     ShaderProgram.uniforms_ := {[ "color" := 7 ]} |}.

Definition vertex_shader : Shader.t := {| Shader.handle_ := 3 |}.
Definition fragment_shader : Shader.t := {| Shader.handle_ := 4 |}.

End SampleMore.

(** * Properties *)

(** ** The laws hold in IEEE arithmetic *)

Lemma ieee_add_zero_half :
  SFadd IEEE.prec64 IEEE.emax64 (IEEE.round_to IEEE.prec64 IEEE.emax64 (S754_zero false)) IEEE.half64
  = IEEE.half64.
Proof. reflexivity. Qed.

Lemma ieee_sub_zero_r (x : spec_float) :
  SFsub IEEE.prec32 IEEE.emax32 x (S754_zero false) = x.
Proof. destruct x as [[]|[]| |s m e]; reflexivity. Qed.

Lemma ieee_sub_diag (x : spec_float) :
  IEEE.is_finite x = true -> SFsub IEEE.prec32 IEEE.emax32 x x = S754_zero false.
Proof.
  destruct x as [[]|[]| |s m e]; simpl; try discriminate; intros _;
    try reflexivity.
  now rewrite Z.sub_diag.
Qed.

#[global] Instance IEEE_laws : @FloatLaws IEEE.arith.
Proof.
  split; [exact ieee_add_zero_half | exact ieee_sub_zero_r
         | exact ieee_sub_diag].
Qed.

(** ** Sprite geometry *)

Section SpriteFacts.
Context `{FA : FloatArith} `{FL : !FloatLaws}.

Lemma SetTextureRectangle_some (rectangle : Rectangle) (self : Sprite)
  (tex : Texture) :
  texture_ self = Some tex ->
  SetTextureRectangle rectangle self =
  Some (SetVertexArray
          (six_vertices (Rectangle_width rectangle)
             (Rectangle_height rectangle)
             (Vec2 (plus_half_over (rect_left rectangle) (tex_width tex))
                   (plus_half_over (rect_top rectangle) (tex_height tex)))
             (Vec2 (plus_half_over (rect_left rectangle) (tex_width tex))
                   (minus_half_over (rect_bottom rectangle) (tex_height tex)))
             (Vec2 (minus_half_over (rect_right rectangle) (tex_width tex))
                   (minus_half_over (rect_bottom rectangle) (tex_height tex)))
             (Vec2 (minus_half_over (rect_right rectangle) (tex_width tex))
                   (plus_half_over (rect_top rectangle) (tex_height tex))))
          self).
Proof. intros Htex. unfold SetTextureRectangle. now rewrite Htex. Qed.

(** C1. For a sprite whose texture is [tex], [SetTextureRectangle]
    replaces the geometry by exactly six vertices, the triangles
    (TL,BL,BR) and (TL,BR,TR): the positions are (0,0), (0,h), (w,h),
    (0,0), (w,h), (w,0) with w = right - left and h = bottom - top, and the
    texture coordinates are (l,t), (l,b), (r,b), (l,t), (r,b), (r,t) with
    l = (left + 0.5) / texWidth, r = (right - 0.5) / texWidth,
    t = (top + 0.5) / texHeight and b = (bottom - 0.5) / texHeight. *)
Theorem SetTextureRectangle_two_triangles (rectangle : Rectangle)
  (self : Sprite) (tex : Texture) :
  texture_ self = Some tex ->
  let w := float_sub (rect_right rectangle) (rect_left rectangle) in
  let h := float_sub (rect_bottom rectangle) (rect_top rectangle) in
  let l := float_of_double
             (double_div
                (double_add (double_of_float (rect_left rectangle)) double_half)
                (double_of_int (tex_width tex))) in
  let r := float_of_double
             (double_div
                (double_sub (double_of_float (rect_right rectangle)) double_half)
                (double_of_int (tex_width tex))) in
  let t := float_of_double
             (double_div
                (double_add (double_of_float (rect_top rectangle)) double_half)
                (double_of_int (tex_height tex))) in
  let b := float_of_double
             (double_div
                (double_sub (double_of_float (rect_bottom rectangle)) double_half)
                (double_of_int (tex_height tex))) in
  let TL := MkVertex (Vec2 float_zero float_zero) (Vec2 l t) in
  let BL := MkVertex (Vec2 float_zero h) (Vec2 l b) in
  let BR := MkVertex (Vec2 w h) (Vec2 r b) in
  let TR := MkVertex (Vec2 w float_zero) (Vec2 r t) in
  exists self',
    SetTextureRectangle rectangle self = Some self' /\
    vertex_array_ self' = [TL; BL; BR; TL; BR; TR] /\
    length (vertex_array_ self') = 6%nat /\
    map position (vertex_array_ self') =
      [Vec2 float_zero float_zero; Vec2 float_zero h; Vec2 w h;
       Vec2 float_zero float_zero; Vec2 w h; Vec2 w float_zero] /\
    map uv (vertex_array_ self') =
      [Vec2 l t; Vec2 l b; Vec2 r b; Vec2 l t; Vec2 r b; Vec2 r t].
Proof.
  intros Htex w h l r t b TL BL BR TR.
  eexists. split; [apply (SetTextureRectangle_some _ _ _ Htex)|].
  repeat split.
Qed.

(** C2. The sprite of a framebuffer whose color texture is W x H refers
    to that texture and has the six positions (0,0), (0,H), (W,H), (0,0),
    (W,H), (W,0), the order of [SetTextureRectangle]; its texture
    coordinates are the corners of [0,1] x [0,1] with no inset, and
    flipped vertically: v = 1 at position (0,0), v = 0 at (0,H); the whole
    array is the layout of [SetTextureRectangle] with l = 0, r = 1 and
    with t and b exchanged (t = 1, b = 0). *)
Theorem Sprite_of_framebuffer_full_flipped (framebuffer : Framebuffer) :
  let W := float_of_int (tex_width (color_texture framebuffer)) in
  let H := float_of_int (tex_height (color_texture framebuffer)) in
  let sprite := Sprite_of_framebuffer framebuffer in
  texture_ sprite = Some (color_texture framebuffer) /\
  map position (vertex_array_ sprite) =
    [Vec2 float_zero float_zero; Vec2 float_zero H; Vec2 W H;
     Vec2 float_zero float_zero; Vec2 W H; Vec2 W float_zero] /\
  map uv (vertex_array_ sprite) =
    [Vec2 float_zero float_one; Vec2 float_zero float_zero;
     Vec2 float_one float_zero; Vec2 float_zero float_one;
     Vec2 float_one float_zero; Vec2 float_one float_one] /\
  vertex_array_ sprite !! 0%nat =
    Some (MkVertex (Vec2 float_zero float_zero) (Vec2 float_zero float_one)) /\
  vertex_array_ sprite !! 1%nat =
    Some (MkVertex (Vec2 float_zero H) (Vec2 float_zero float_zero)) /\
  vertex_array_ sprite =
    six_vertices W H
      (Vec2 float_zero float_one) (Vec2 float_zero float_zero)
      (Vec2 float_one float_zero) (Vec2 float_one float_one).
Proof. repeat split. Qed.

(** The rectangle with left = 0, top = 0, right = W and bottom = H, given
    to [Sprite(texture, rectangle)], has the texture coordinates 0.5/W and
    0.5/H at the top-left corner, (W-0.5)/W and (H-0.5)/H at the
    bottom-right corner, and positions that span (0,0) to (W,H). *)
Remark Sprite_of_texture_rectangle_full (texture : Texture) :
  let W := float_of_int (tex_width texture) in
  let H := float_of_int (tex_height texture) in
  let l := float_of_double
             (double_div double_half (double_of_int (tex_width texture))) in
  let r := float_of_double
             (double_div (double_sub (double_of_float W) double_half)
                         (double_of_int (tex_width texture))) in
  let t := float_of_double
             (double_div double_half (double_of_int (tex_height texture))) in
  let b := float_of_double
             (double_div (double_sub (double_of_float H) double_half)
                         (double_of_int (tex_height texture))) in
  exists sprite,
    Sprite_of_texture_rectangle texture
      {| rect_left := float_zero; rect_right := W;
         rect_top := float_zero; rect_bottom := H |} = Some sprite /\
    texture_ sprite = Some texture /\
    vertex_array_ sprite =
      [MkVertex (Vec2 float_zero float_zero) (Vec2 l t);
       MkVertex (Vec2 float_zero H) (Vec2 l b);
       MkVertex (Vec2 W H) (Vec2 r b);
       MkVertex (Vec2 float_zero float_zero) (Vec2 l t);
       MkVertex (Vec2 W H) (Vec2 r b);
       MkVertex (Vec2 W float_zero) (Vec2 r t)].
Proof.
  intros W H l r t b. unfold Sprite_of_texture_rectangle.
  erewrite SetTextureRectangle_some by reflexivity.
  eexists. split; [reflexivity|]. split; [reflexivity|].
  unfold SetVertexArray, six_vertices, Rectangle_width, Rectangle_height,
    plus_half_over, minus_half_over.
  cbn [vertex_array_ rect_left rect_right rect_top rect_bottom].
  rewrite double_add_zero_half, !float_sub_zero_r. reflexivity.
Qed.

(** [Sprite(texture)] on any texture: the braces [{0, 0, W, H}] set
    left = 0, right = 0, top = W and bottom = H, so the width is 0 - 0,
    the height is H - W, u is 0.5/W and (0 - 0.5)/W, and v is (W + 0.5)/H
    and (H - 0.5)/H; every vertex has x = 0. *)
Lemma Sprite_of_texture_run (texture : Texture) :
  let W := float_of_int (tex_width texture) in
  let H := float_of_int (tex_height texture) in
  let hhh := float_sub H W in
  let l := plus_half_over float_zero (tex_width texture) in
  let r := minus_half_over float_zero (tex_width texture) in
  let t := plus_half_over W (tex_height texture) in
  let b := minus_half_over H (tex_height texture) in
  exists sprite,
    Sprite_of_texture texture = Some sprite /\
    texture_ sprite = Some texture /\
    vertex_array_ sprite =
      [MkVertex (Vec2 float_zero float_zero) (Vec2 l t);
       MkVertex (Vec2 float_zero hhh) (Vec2 l b);
       MkVertex (Vec2 float_zero hhh) (Vec2 r b);
       MkVertex (Vec2 float_zero float_zero) (Vec2 l t);
       MkVertex (Vec2 float_zero hhh) (Vec2 r b);
       MkVertex (Vec2 float_zero float_zero) (Vec2 r t)] /\
    Forall (fun v => vx (position v) = float_zero) (vertex_array_ sprite).
Proof.
  intros W H hhh l r t b. unfold Sprite_of_texture, Rectangle_braces.
  erewrite SetTextureRectangle_some by reflexivity.
  eexists. split; [reflexivity|]. split; [reflexivity|].
  unfold SetVertexArray, six_vertices, Rectangle_width, Rectangle_height.
  cbn [vertex_array_ rect_left rect_right rect_top rect_bottom].
  rewrite float_sub_zero_r. split; [reflexivity|]. repeat constructor.
Qed.

(** C8. For every rectangle, whatever its components, and every sprite
    that has a texture, [SetTextureRectangle] returns a sprite with six
    vertices and the same texture reference. When the rectangle's width
    is zero (as it is when right = left, for a finite left) every vertex
    has x = 0; when its height is zero (bottom = top) every vertex has
    y = 0: both triangles are flat. *)
Theorem SetTextureRectangle_total (rectangle : Rectangle) (self : Sprite)
  (tex : Texture) :
  texture_ self = Some tex ->
  exists self',
    SetTextureRectangle rectangle self = Some self' /\
    length (vertex_array_ self') = 6%nat /\
    texture_ self' = Some tex /\
    (Rectangle_width rectangle = float_zero ->
     Forall (fun v => vx (position v) = float_zero) (vertex_array_ self')) /\
    (Rectangle_height rectangle = float_zero ->
     Forall (fun v => vy (position v) = float_zero) (vertex_array_ self')) /\
    (rect_right rectangle = rect_left rectangle ->
     float_is_finite (rect_left rectangle) = true ->
     Forall (fun v => vx (position v) = float_zero) (vertex_array_ self')) /\
    (rect_bottom rectangle = rect_top rectangle ->
     float_is_finite (rect_top rectangle) = true ->
     Forall (fun v => vy (position v) = float_zero) (vertex_array_ self')).
Proof.
  intros Htex. eexists.
  split; [apply (SetTextureRectangle_some _ _ _ Htex)|].
  cbn [vertex_array_ texture_ SetVertexArray six_vertices].
  assert (Hx : Rectangle_width rectangle = float_zero ->
    Forall (fun v => vx (position v) = float_zero)
      (six_vertices (Rectangle_width rectangle) (Rectangle_height rectangle)
         (Vec2 (plus_half_over (rect_left rectangle) (tex_width tex))
               (plus_half_over (rect_top rectangle) (tex_height tex)))
         (Vec2 (plus_half_over (rect_left rectangle) (tex_width tex))
               (minus_half_over (rect_bottom rectangle) (tex_height tex)))
         (Vec2 (minus_half_over (rect_right rectangle) (tex_width tex))
               (minus_half_over (rect_bottom rectangle) (tex_height tex)))
         (Vec2 (minus_half_over (rect_right rectangle) (tex_width tex))
               (plus_half_over (rect_top rectangle) (tex_height tex))))).
  { intros ->. repeat constructor. }
  assert (Hy : Rectangle_height rectangle = float_zero ->
    Forall (fun v => vy (position v) = float_zero)
      (six_vertices (Rectangle_width rectangle) (Rectangle_height rectangle)
         (Vec2 (plus_half_over (rect_left rectangle) (tex_width tex))
               (plus_half_over (rect_top rectangle) (tex_height tex)))
         (Vec2 (plus_half_over (rect_left rectangle) (tex_width tex))
               (minus_half_over (rect_bottom rectangle) (tex_height tex)))
         (Vec2 (minus_half_over (rect_right rectangle) (tex_width tex))
               (minus_half_over (rect_bottom rectangle) (tex_height tex)))
         (Vec2 (minus_half_over (rect_right rectangle) (tex_width tex))
               (plus_half_over (rect_top rectangle) (tex_height tex))))).
  { intros ->. repeat constructor. }
  repeat split; try assumption.
  - intros Heq Hfin. apply Hx. unfold Rectangle_width.
    rewrite Heq. now apply float_sub_diag.
  - intros Heq Hfin. apply Hy. unfold Rectangle_height.
    rewrite Heq. now apply float_sub_diag.
Qed.

End SpriteFacts.

(** The geometry of the 2 x 2 rectangle on the 4 x 4 texture, in binary32:
    l = t = 0.125 and r = b = 0.375. *)
Example SetTextureRectangle_2x2 :
  vertex_array_ <$> SetTextureRectangle Sample.rect_2x2 Sample.sprite_4x4 =
  Some
    (six_vertices (Sample.f32 2) (Sample.f32 2)
       (Vec2 (Sample.dyadic 1 (-3)) (Sample.dyadic 1 (-3)))
       (Vec2 (Sample.dyadic 1 (-3)) (Sample.dyadic 3 (-3)))
       (Vec2 (Sample.dyadic 3 (-3)) (Sample.dyadic 3 (-3)))
       (Vec2 (Sample.dyadic 3 (-3)) (Sample.dyadic 1 (-3)))).
Proof. reflexivity. Qed.

(** The sprite of a 128 x 64 framebuffer: u and v are exactly 0 or 1. *)
Example Sprite_of_framebuffer_128x64 :
  map uv (vertex_array_ (Sprite_of_framebuffer Sample.framebuffer_128x64)) =
  [Vec2 (Sample.f32 0) (Sample.f32 1); Vec2 (Sample.f32 0) (Sample.f32 0);
   Vec2 (Sample.f32 1) (Sample.f32 0); Vec2 (Sample.f32 0) (Sample.f32 1);
   Vec2 (Sample.f32 1) (Sample.f32 0); Vec2 (Sample.f32 1) (Sample.f32 1)].
Proof. reflexivity. Qed.

Lemma SetTextureRectangle_two_triangles_witness :
  texture_ Sample.sprite_4x4 = Some Sample.texture_4x4 /\
  exists self',
    SetTextureRectangle Sample.rect_2x2 Sample.sprite_4x4 = Some self' /\
    length (vertex_array_ self') = 6%nat /\
    map position (vertex_array_ self') =
      [Vec2 (Sample.f32 0) (Sample.f32 0); Vec2 (Sample.f32 0) (Sample.f32 2);
       Vec2 (Sample.f32 2) (Sample.f32 2); Vec2 (Sample.f32 0) (Sample.f32 0);
       Vec2 (Sample.f32 2) (Sample.f32 2); Vec2 (Sample.f32 2) (Sample.f32 0)].
Proof.
  split; [reflexivity|].
  destruct (SetTextureRectangle_two_triangles
              Sample.rect_2x2 Sample.sprite_4x4 Sample.texture_4x4 eq_refl)
    as (self' & Hrun & _ & Hlen & Hpos & _).
  exists self'. split; [exact Hrun|]. split; [exact Hlen|].
  rewrite Hpos. reflexivity.
Defined.


Lemma SetTextureRectangle_total_witness :
  texture_ Sample.sprite_4x4 = Some Sample.texture_4x4 /\
  exists self',
    SetTextureRectangle Sample.rect_flat Sample.sprite_4x4 = Some self' /\
    length (vertex_array_ self') = 6%nat /\
    Forall (fun v => vx (position v) = Sample.f32 0) (vertex_array_ self').
Proof.
  split; [reflexivity|].
  destruct (SetTextureRectangle_total
              Sample.rect_flat Sample.sprite_4x4 Sample.texture_4x4 eq_refl)
    as (self' & Hrun & Hlen & _ & _ & _ & Hflat & _).
  exists self'. split; [exact Hrun|]. split; [exact Hlen|].
  apply Hflat; reflexivity.
Defined.

(** ** Shader units *)

(** Unfold the monad and the primitive effects, so that a run of a
    method is a term over the world it starts in. *)
Ltac run_glm :=
  unfold glm_bind, gl_ask, gl_do, cout_line, cerr_line, glm_ret,
    throw_runtime_error, throw, exit, undefined, log_call;
  cbn [gl_log cout cerr files fst snd].

(** A text without NUL is its own C string. *)
Lemma c_str_NUL_free (s : string) : NUL_free s = true -> c_str s = s.
Proof.
  induction s as [|c s IH]; [reflexivity|]. cbn [NUL_free c_str].
  destruct (Ascii.eqb c NUL); [discriminate|].
  cbn [negb andb]. intros Hs. now rewrite IH.
Qed.

Section ShaderFacts.
Context `{FA : FloatArith}.
Variable EMSCRIPTEN : bool.
Variable drv : Driver.

Lemma construct_create_failure (content : string) (type : GLenum)
  (w : World) :
  drv_CreateShader drv (gl_log w) type = 0 ->
  Shader.construct drv content type w =
  (Thrown Shader.error_create, world_create_failed type w).
Proof.
  intros Hcreate. unfold Shader.construct. run_glm.
  rewrite Hcreate. reflexivity.
Qed.

Lemma construct_compile_failure (content : string) (type : GLenum)
  (w : World) :
  let handle := drv_CreateShader drv (gl_log w) type in
  handle <> 0 ->
  drv_GetShaderiv drv (gl_log w ++ compile_calls type handle (c_str content))
    handle GL_COMPILE_STATUS <> GL_TRUE ->
  Shader.construct drv content type w =
  (Exited EXIT_FAILURE,
   world_compile_failed drv type handle (c_str content) w).
Proof.
  intros handle Hcreate Hstatus. unfold Shader.construct. run_glm.
  fold handle. apply Z.eqb_neq in Hcreate. rewrite Hcreate.
  run_glm. unfold compile_calls in Hstatus.
  rewrite <- !app_assoc. cbn [app].
  apply Z.eqb_neq in Hstatus. rewrite Hstatus. cbn [negb].
  unfold world_compile_failed, compile_calls.
  cbn [gl_log cout cerr files]. rewrite <- !app_assoc. reflexivity.
Qed.

Lemma construct_success (content : string) (type : GLenum) (w : World) :
  let handle := drv_CreateShader drv (gl_log w) type in
  handle <> 0 ->
  drv_GetShaderiv drv (gl_log w ++ compile_calls type handle (c_str content))
    handle GL_COMPILE_STATUS = GL_TRUE ->
  Shader.construct drv content type w =
  (Returned {| Shader.handle_ := handle |},
   {| gl_log := gl_log w ++ compile_calls type handle (c_str content)
                 ++ [glGetShaderiv handle GL_COMPILE_STATUS];
      cout := cout w; cerr := cerr w; files := files w |}).
Proof.
  intros handle Hcreate Hstatus. unfold Shader.construct. run_glm.
  fold handle. apply Z.eqb_neq in Hcreate. rewrite Hcreate.
  run_glm. unfold compile_calls in *.
  rewrite <- !app_assoc. cbn [app].
  rewrite Hstatus. reflexivity.
Qed.

(** The bytes [FromString] hands to the constructor denote the header
    followed by the content up to its first NUL. *)
Lemma c_str_app (s t : string) :
  c_str s = s -> c_str (s +:+ t) = (s +:+ c_str t)%string.
Proof.
  induction s as [|c s IH]; simpl; [reflexivity|].
  destruct (Ascii.eqb c NUL); [discriminate|].
  intros [= Hs].
  change (String c s +:+ c_str t)%string with (String c (s +:+ c_str t)).
  f_equal. now apply IH.
Qed.

Lemma c_str_header : c_str (Shader.shader_header EMSCRIPTEN)
                     = Shader.shader_header EMSCRIPTEN.
Proof. destruct EMSCRIPTEN; reflexivity. Qed.

Lemma c_str_buffer (content : string) :
  c_str (Shader.shader_header EMSCRIPTEN +:+ content +:+ String NUL EmptyString)
  = (Shader.shader_header EMSCRIPTEN +:+ c_str (content +:+ String NUL EmptyString))%string.
Proof. apply c_str_app, c_str_header. Qed.

Lemma FromFile_FromString (filename content : string) (type : GLenum)
  (w : World) :
  read_file filename w = (Returned content, w) ->
  Shader.FromFile EMSCRIPTEN drv filename type w =
  Shader.FromString EMSCRIPTEN drv content type w.
Proof.
  intros Hread. unfold Shader.FromFile, glm_bind. now rewrite Hread.
Qed.

Lemma read_file_not_opened (filename : string) (w : World) :
  files w !! filename = None ->
  read_file filename w = (Returned EmptyString, w).
Proof. intros Hfile. unfold read_file. now rewrite Hfile. Qed.

Lemma read_file_content (filename content : string) (w : World) :
  files w !! filename = Some (Some content) ->
  read_file filename w = (Returned content, w).
Proof. intros Hfile. unfold read_file. now rewrite Hfile. Qed.

Lemma FromFile_read_failure (filename : string) (type : GLenum) (w : World) :
  files w !! filename = Some None ->
  Shader.FromFile EMSCRIPTEN drv filename type w
  = (Thrown ios_failure_what, w).
Proof.
  intros Hfile. unfold Shader.FromFile, glm_bind, read_file.
  now rewrite Hfile.
Qed.

End ShaderFacts.

Section ShaderClaims.
Context `{FA : FloatArith}.
Variable EMSCRIPTEN : bool.
Variable drv : Driver.


(** C9. When [glCreateShader] returns 0 the constructor, and so
    [FromString] and [FromFile] once the file is read, writes its message
    to [std::cerr] and throws [std::runtime_error] with the same message;
    the only driver call made is [glCreateShader], and the process does
    not exit. *)
Theorem Shader_create_failure_throws (content filename : string)
  (type : GLenum) (w : World) :
  drv_CreateShader drv (gl_log w) type = 0 ->
  let w' := world_create_failed type w in
  Shader.construct drv content type w = (Thrown Shader.error_create, w') /\
  Shader.FromString EMSCRIPTEN drv content type w
    = (Thrown Shader.error_create, w') /\
  (forall text,
     read_file filename w = (Returned text, w) ->
     Shader.FromFile EMSCRIPTEN drv filename type w
     = (Thrown Shader.error_create, w')) /\
  (forall status,
     fst (Shader.construct drv content type w) <> Exited status) /\
  gl_log w' = gl_log w ++ [glCreateShader type] /\
  cerr w' = cerr w ++ ["[Error] Impossible to create a new Shader"] /\
  cout w' = cout w.
Proof.
  intros Hcreate w'.
  split; [now apply construct_create_failure|].
  split; [now apply construct_create_failure|].
  split.
  { intros text Hread. rewrite (FromFile_FromString _ _ _ _ _ _ Hread).
    now apply construct_create_failure. }
  split; [|repeat split].
  intros status. now rewrite construct_create_failure.
Qed.

(** C10, as the code has it. For a path that cannot be opened
    [FromFile] reads no character: it is [FromString] of the empty
    string, no error is reported about the file, and the constructor is
    given the header alone. For a file that opens and reads as [content]
    it is [FromString] of [content]. For a path that opens and whose
    read fails the exception of the stream read leaves [FromFile] before
    any shader is made. *)
Theorem FromFile_not_opened (filename : string) (type : GLenum) (w : World) :
  files w !! filename = None ->
  Shader.FromFile EMSCRIPTEN drv filename type w
    = Shader.FromString EMSCRIPTEN drv EmptyString type w /\
  Shader.FromFile EMSCRIPTEN drv filename type w
    = Shader.construct drv
        (Shader.shader_header EMSCRIPTEN +:+ String NUL EmptyString) type w /\
  c_str (Shader.shader_header EMSCRIPTEN +:+ String NUL EmptyString)
    = Shader.shader_header EMSCRIPTEN /\
  (forall (w2 : World) (content : string),
     files w2 !! filename = Some (Some content) ->
     Shader.FromFile EMSCRIPTEN drv filename type w2
     = Shader.FromString EMSCRIPTEN drv content type w2) /\
  (forall w2 : World,
     files w2 !! filename = Some None ->
     Shader.FromFile EMSCRIPTEN drv filename type w2
     = (Thrown ios_failure_what, w2)).
Proof.
  intros Hfile.
  pose proof (FromFile_FromString EMSCRIPTEN drv _ _ type _
                (read_file_not_opened _ _ Hfile)) as Hempty.
  split; [exact Hempty|]. split; [exact Hempty|].
  split; [destruct EMSCRIPTEN; reflexivity|].
  split.
  - intros w2 content Hcontent.
    apply FromFile_FromString, read_file_content, Hcontent.
  - intros w2. apply FromFile_read_failure.
Qed.

End ShaderClaims.

(** ** Shader programs *)

Section ProgramFacts.
Context `{FA : FloatArith}.
Variable drv : Driver.

Lemma count_calls_app (p : GLCall -> bool) (w w' : World)
  (calls : list GLCall) :
  gl_log w' = gl_log w ++ calls ->
  count_calls p w' = (count_calls p w + length (List.filter p calls))%nat.
Proof.
  intros Hlog. unfold count_calls.
  now rewrite Hlog, List.filter_app, length_app.
Qed.

(** *** [Link] *)

Lemma Link_failure (self : ShaderProgram.t) (w : World) :
  drv_GetProgramiv drv (gl_log w ++ [glLinkProgram (ShaderProgram.handle_ self)])
    (ShaderProgram.handle_ self) GL_LINK_STATUS <> GL_TRUE ->
  0 < link_log_length drv (ShaderProgram.handle_ self) w ->
  ShaderProgram.Link drv self w =
  (Returned self, world_link_failed drv (ShaderProgram.handle_ self) w).
Proof.
  intros Hstatus Hlength. unfold ShaderProgram.Link. run_glm.
  apply Z.eqb_neq in Hstatus. rewrite Hstatus. cbn [negb].
  unfold link_log_length in Hlength.
  cbn [gl_log cout cerr files]. rewrite <- !app_assoc. cbn [app].
  rewrite (proj2 (Z.ltb_ge _ 0)) by lia. run_glm.
  apply Z.ltb_lt in Hlength. rewrite Hlength. run_glm.
  unfold world_link_failed. cbn [gl_log cout cerr files].
  rewrite <- !app_assoc. reflexivity.
Qed.

Lemma Link_undefined (self : ShaderProgram.t) (w : World) :
  drv_GetProgramiv drv (gl_log w ++ [glLinkProgram (ShaderProgram.handle_ self)])
    (ShaderProgram.handle_ self) GL_LINK_STATUS <> GL_TRUE ->
  link_log_length drv (ShaderProgram.handle_ self) w = 0 ->
  ShaderProgram.Link drv self w =
  (Undefined, world_link_undefined drv (ShaderProgram.handle_ self) w).
Proof.
  intros Hstatus Hlength. unfold ShaderProgram.Link. run_glm.
  apply Z.eqb_neq in Hstatus. rewrite Hstatus. cbn [negb].
  unfold world_link_undefined, link_log_length in *.
  cbn [gl_log cout cerr files]. rewrite <- !app_assoc. cbn [app].
  rewrite Hlength. cbn [Z.ltb Z.compare]. run_glm.
  rewrite <- ?app_assoc. reflexivity.
Qed.

Lemma Link_bad_length (self : ShaderProgram.t) (w : World) :
  drv_GetProgramiv drv (gl_log w ++ [glLinkProgram (ShaderProgram.handle_ self)])
    (ShaderProgram.handle_ self) GL_LINK_STATUS <> GL_TRUE ->
  link_log_length drv (ShaderProgram.handle_ self) w < 0 ->
  fst (ShaderProgram.Link drv self w)
  = Thrown ShaderProgram.bad_array_new_length_what.
Proof.
  intros Hstatus Hlength. unfold ShaderProgram.Link. run_glm.
  apply Z.eqb_neq in Hstatus. rewrite Hstatus. cbn [negb].
  unfold link_log_length in Hlength.
  cbn [gl_log cout cerr files]. rewrite <- !app_assoc. cbn [app].
  apply Z.ltb_lt in Hlength. now rewrite Hlength.
Qed.

Lemma logs_failed_links_here (self : ShaderProgram.t) (w : World) :
  logs_failed_links drv ->
  drv_GetProgramiv drv (gl_log w ++ [glLinkProgram (ShaderProgram.handle_ self)])
    (ShaderProgram.handle_ self) GL_LINK_STATUS <> GL_TRUE ->
  0 < link_log_length drv (ShaderProgram.handle_ self) w.
Proof. intros Hlogs Hstatus. now apply Hlogs. Qed.

Lemma Link_success (self : ShaderProgram.t) (w : World) :
  drv_GetProgramiv drv (gl_log w ++ [glLinkProgram (ShaderProgram.handle_ self)])
    (ShaderProgram.handle_ self) GL_LINK_STATUS = GL_TRUE ->
  ShaderProgram.Link drv self w =
  (Returned self,
   {| gl_log := gl_log w ++ [glLinkProgram (ShaderProgram.handle_ self);
                             glGetProgramiv (ShaderProgram.handle_ self)
                               GL_LINK_STATUS];
      cout := cout w; cerr := cerr w; files := files w |}).
Proof.
  intros Hstatus. unfold ShaderProgram.Link. run_glm.
  rewrite Hstatus. cbn [Z.eqb Pos.eqb negb GL_TRUE].
  rewrite <- !app_assoc. reflexivity.
Qed.

(** *** [Uniform] and [Attribute] *)

Lemma Uniform_hit (name : string) (self : ShaderProgram.t) (w : World)
  (location : GLint) :
  ShaderProgram.uniforms_ self !! name = Some location ->
  ShaderProgram.Uniform drv name self w = (Returned (location, self), w).
Proof. intros Hhit. unfold ShaderProgram.Uniform. now rewrite Hhit. Qed.

Lemma Uniform_miss (name : string) (self : ShaderProgram.t) (w : World) :
  ShaderProgram.uniforms_ self !! name = None ->
  let location :=
    drv_GetUniformLocation drv (gl_log w) (ShaderProgram.handle_ self) name in
  ShaderProgram.Uniform drv name self w =
  (Returned (location,
             {| ShaderProgram.handle_ := ShaderProgram.handle_ self;
                ShaderProgram.uniforms_ :=
                  <[name := location]> (ShaderProgram.uniforms_ self) |}),
   world_queried (glGetUniformLocation (ShaderProgram.handle_ self) name)
     location (ShaderProgram.error_uniform name) w).
Proof.
  intros Hmiss location. unfold ShaderProgram.Uniform. rewrite Hmiss.
  run_glm. fold location. unfold world_queried.
  destruct ((location =? GL_INVALID_OPERATION) || (location <? 0));
    cbn [gl_log cout cerr files]; now rewrite ?app_nil_r.
Qed.

Lemma Attribute_run (name : string) (self : ShaderProgram.t) (w : World) :
  let location :=
    drv_GetAttribLocation drv (gl_log w) (ShaderProgram.handle_ self) name in
  ShaderProgram.Attribute drv name self w =
  (Returned (location, self),
   world_queried (glGetAttribLocation (ShaderProgram.handle_ self) name)
     location (ShaderProgram.error_attribute name) w).
Proof.
  intros location. unfold ShaderProgram.Attribute.
  run_glm. fold location. unfold world_queried.
  destruct ((location =? GL_INVALID_OPERATION) || (location <? 0));
    cbn [gl_log cout cerr files]; now rewrite ?app_nil_r.
Qed.

End ProgramFacts.

Section ProgramLifeFacts.
Context `{FA : FloatArith}.
Variable drv : Driver.
Hypothesis Hlogs : logs_failed_links drv.

Lemma resolve_effect (n : string) (self : ShaderProgram.t) (w : World) :
  exists location self' w' calls,
    ShaderProgram.Uniform drv n self w = (Returned (location, self'), w') /\
    gl_log w' = gl_log w ++ calls /\
    (forall name,
       length (List.filter (is_uniform_query name) calls)
       = queries_of name (OpUniform n) self) /\
    (forall name,
       ShaderProgram.uniforms_ self' !! name
       = cache_after drv name (OpUniform n) self w).
Proof.
  unfold queries_of, cache_after. cbn [resolves].
  destruct (ShaderProgram.uniforms_ self !! n) as [location|] eqn:Hn.
  - exists location, self, w, []. rewrite (Uniform_hit _ _ _ _ _ Hn).
    split; [reflexivity|]. split; [now rewrite app_nil_r|].
    split; intros name.
    + destruct (String.eqb_spec n name) as [->|Hne]; [now rewrite Hn|].
      now destruct (ShaderProgram.uniforms_ self !! name).
    + destruct (String.eqb_spec n name) as [->|Hne]; [now rewrite Hn|].
      now destruct (ShaderProgram.uniforms_ self !! name).
  - eexists _, _, _, [_]. rewrite (Uniform_miss _ _ _ _ Hn).
    split; [reflexivity|]. split; [reflexivity|].
    split; intros name; cbn [List.filter is_uniform_query
                             ShaderProgram.uniforms_].
    + destruct (String.eqb_spec n name) as [->|Hne]; [now rewrite Hn|].
      now destruct (ShaderProgram.uniforms_ self !! name).
    + destruct (String.eqb_spec n name) as [->|Hne].
      * now rewrite lookup_insert_eq, Hn.
      * rewrite lookup_insert_ne by exact Hne.
        now destruct (ShaderProgram.uniforms_ self !! name).
Qed.

(** Every method returns; it appends its driver calls to the log, asks
    for the location of a uniform only when it resolves a name that the
    cache does not hold, and changes the cache only by that entry. *)
Lemma run_op_effect (op : Op) (self : ShaderProgram.t) (w : World) :
  exists self' w' calls,
    run_op drv op self w = (Returned self', w') /\
    gl_log w' = gl_log w ++ calls /\
    (forall name,
       length (List.filter (is_uniform_query name) calls)
       = queries_of name op self) /\
    (forall name,
       ShaderProgram.uniforms_ self' !! name = cache_after drv name op self w).
Proof.
  assert (Hkeep : forall name,
    ShaderProgram.uniforms_ self !! name
    = match ShaderProgram.uniforms_ self !! name with
      | Some location => Some location
      | None => None
      end).
  { intros name. now destruct (ShaderProgram.uniforms_ self !! name). }
  assert (Hzero : forall name,
    0%nat = match ShaderProgram.uniforms_ self !! name with
            | Some _ => 0%nat
            | None => 0%nat
            end).
  { intros name. now destruct (ShaderProgram.uniforms_ self !! name). }
  destruct op as [shader| |n|n|n size stride offset normalize type|n value| |];
    unfold queries_of, cache_after; cbn [run_op resolves].
  - (* AddShader *)
    unfold ShaderProgram.AddShader. run_glm.
    destruct (ShaderProgram.handle_ self =? 0).
    + run_glm.
      destruct (drv_CreateProgram drv (gl_log w) =? 0); run_glm;
        eexists _, _, [_; _]; (split; [reflexivity|]);
        cbn [gl_log]; rewrite <- ?app_assoc;
        (split; [reflexivity|]); split; intros name;
        cbn [List.filter is_uniform_query length ShaderProgram.uniforms_];
        auto.
    + eexists _, _, [_]. split; [reflexivity|].
      split; [reflexivity|]. split; intros name;
        cbn [List.filter is_uniform_query length]; auto.
  - (* Link *)
    destruct (Z.eq_dec
      (drv_GetProgramiv drv
         (gl_log w ++ [glLinkProgram (ShaderProgram.handle_ self)])
         (ShaderProgram.handle_ self) GL_LINK_STATUS) GL_TRUE) as [Hok|Hko].
    + rewrite (Link_success _ _ _ Hok). eexists _, _, [_; _].
      split; [reflexivity|]. split; [reflexivity|].
      split; intros name; cbn [List.filter is_uniform_query length]; auto.
    + rewrite (Link_failure _ _ _ Hko
                 (logs_failed_links_here _ _ _ Hlogs Hko)).
      eexists _, _, [_; _; _; _].
      split; [reflexivity|]. unfold world_link_failed. cbn [gl_log].
      rewrite <- !app_assoc. split; [reflexivity|].
      split; intros name; cbn [List.filter is_uniform_query length]; auto.
  - (* Uniform *)
    destruct (resolve_effect n self w)
      as (location & self' & w' & calls & Hrun & Hlog & Hcount & Hcache).
    exists self', w', calls. unfold glm_bind. rewrite Hrun.
    split; [reflexivity|]. split; [exact Hlog|].
    split; [exact Hcount | exact Hcache].
  - (* Attribute *)
    unfold glm_bind. rewrite Attribute_run. eexists _, _, [_].
    split; [reflexivity|]. split; [reflexivity|].
    split; intros name; cbn [List.filter is_uniform_query length]; auto.
  - (* SetAttribute *)
    unfold ShaderProgram.SetAttribute, glm_bind. rewrite Attribute_run.
    run_glm. eexists _, _, [_; _; _]. split; [reflexivity|].
    unfold world_queried. cbn [gl_log]. rewrite <- !app_assoc.
    split; [reflexivity|].
    split; intros name; cbn [List.filter is_uniform_query length]; auto.
  - (* SetUniform *)
    destruct (resolve_effect n self w)
      as (location & self' & w' & calls & Hrun & Hlog & Hcount & Hcache).
    exists self', (log_call (glUniform location value) w'),
      (calls ++ [glUniform location value]).
    unfold ShaderProgram.SetUniform, glm_bind. rewrite Hrun. run_glm.
    split; [reflexivity|]. unfold log_call. cbn [gl_log].
    rewrite Hlog, <- app_assoc. split; [reflexivity|].
    split; intros name.
    + rewrite List.filter_app, length_app. cbn [List.filter is_uniform_query length].
      rewrite Nat.add_0_r. apply Hcount.
    + apply Hcache.
  - (* Use *)
    eexists _, _, [_]. split; [reflexivity|]. split; [reflexivity|].
    split; intros name; cbn [List.filter is_uniform_query length]; auto.
  - (* Unuse *)
    eexists _, _, [_]. split; [reflexivity|]. split; [reflexivity|].
    split; intros name; cbn [List.filter is_uniform_query length]; auto.
Qed.

End ProgramLifeFacts.

Section ProgramClaims.
Context `{FA : FloatArith}.
Variable drv : Driver.
Hypothesis Hlogs : logs_failed_links drv.

Lemma run_ops_effect (ops : list Op) (self : ShaderProgram.t) (w : World) :
  exists self' w',
    run_ops drv ops self w = (Returned self', w') /\
    (forall name,
       count_calls (is_uniform_query name) w'
       = (count_calls (is_uniform_query name) w
          + match ShaderProgram.uniforms_ self !! name with
            | Some _ => 0
            | None => if existsb (resolves name) ops then 1 else 0
            end)%nat) /\
    (forall name location,
       ShaderProgram.uniforms_ self !! name = Some location ->
       ShaderProgram.uniforms_ self' !! name = Some location).
Proof.
  revert self w. induction ops as [|op ops IH]; intros self w.
  - exists self, w. split; [reflexivity|]. split; [|auto].
    intros name. destruct (ShaderProgram.uniforms_ self !! name); cbn; lia.
  - destruct (run_op_effect drv Hlogs op self w)
      as (self1 & w1 & calls & Hrun & Hlog & Hcount & Hcache).
    destruct (IH self1 w1) as (self' & w' & Hrest & Hcount' & Hkeep').
    exists self', w'. cbn [run_ops]. unfold glm_bind. rewrite Hrun.
    split; [exact Hrest|]. split.
    + intros name. rewrite Hcount', (count_calls_app _ _ _ _ Hlog), Hcount.
      rewrite Hcache. unfold queries_of, cache_after. cbn [existsb].
      destruct (ShaderProgram.uniforms_ self !! name); [lia|].
      destruct (resolves name op); cbn [orb]; [lia|].
      destruct (existsb (resolves name) ops); lia.
    + intros name location Hhit. apply Hkeep'. rewrite Hcache.
      unfold cache_after. now rewrite Hhit.
Qed.

(** The cache holds [name] after a run exactly when it held it before or
    some call of the run resolved it. *)
Lemma run_ops_cached (ops : list Op) (self : ShaderProgram.t) (w : World) :
  exists self' w',
    run_ops drv ops self w = (Returned self', w') /\
    (forall name,
       is_Some (ShaderProgram.uniforms_ self' !! name) <->
       is_Some (ShaderProgram.uniforms_ self !! name) \/
       existsb (resolves name) ops = true).
Proof.
  revert self w. induction ops as [|op ops IH]; intros self w.
  - exists self, w. split; [reflexivity|]. intros name. cbn [existsb].
    split; [now left | now intros [H|H]].
  - destruct (run_op_effect drv Hlogs op self w)
      as (self1 & w1 & calls & Hrun & _ & _ & Hcache).
    destruct (IH self1 w1) as (self' & w' & Hrest & Hholds).
    exists self', w'. cbn [run_ops]. unfold glm_bind. rewrite Hrun.
    split; [exact Hrest|]. intros name.
    rewrite Hholds, Hcache. unfold cache_after. cbn [existsb].
    rewrite orb_true_iff.
    destruct (ShaderProgram.uniforms_ self !! name) as [location|].
    + split; [now left; eexists | now left; eexists].
    + destruct (resolves name op).
      * split; [now right; left | now left; eexists].
      * split.
        -- intros [[? [=]]|H]; now right; right.
        -- intros [[? [=]]|[[=]|H]]. now right.
Qed.

Lemma run_ops_app (ops1 ops2 : list Op) (self : ShaderProgram.t)
  (w : World) :
  run_ops drv (ops1 ++ ops2) self w
  = glm_bind (run_ops drv ops1 self) (run_ops drv ops2) w.
Proof.
  revert self w. induction ops1 as [|op ops1 IH]; intros self w.
  - reflexivity.
  - cbn [app run_ops]. unfold glm_bind at 1 2 3.
    destruct (run_op drv op self w) as [[self1|what|status|] w1];
      [apply IH | reflexivity..].
Qed.

Lemma run_ops_Uniform (name : string) (ops : list Op)
  (self self' : ShaderProgram.t) (w w' : World) (location : GLint) :
  ShaderProgram.Uniform drv name self w = (Returned (location, self'), w') ->
  run_ops drv (OpUniform name :: ops) self w = run_ops drv ops self' w'.
Proof.
  intros Hrun. cbn [run_ops run_op]. unfold glm_bind. now rewrite Hrun.
Qed.

Lemma Uniform_caches (name : string) (self self' : ShaderProgram.t)
  (w w' : World) (location : GLint) :
  ShaderProgram.Uniform drv name self w = (Returned (location, self'), w') ->
  ShaderProgram.uniforms_ self' !! name = Some location.
Proof.
  destruct (ShaderProgram.uniforms_ self !! name) as [l|] eqn:Hn.
  - rewrite (Uniform_hit _ _ _ _ _ Hn). now intros [= <- <- _].
  - rewrite (Uniform_miss _ _ _ _ Hn). intros [= <- <- _].
    apply lookup_insert_eq.
Qed.

End ProgramClaims.

(** ** Moves and releases *)

Lemma Shader_destroy_run `{FA : FloatArith} (o : Shader.t) (w : World) :
  Shader.destroy o w =
  (Returned (if decide (Shader.handle_ o = 0) then o else Shader.default),
   if decide (Shader.handle_ o = 0) then w
   else log_call (glDeleteShader (Shader.handle_ o)) w).
Proof.
  unfold Shader.destroy. destruct (decide (Shader.handle_ o = 0)) as [Hz|Hnz].
  - now rewrite Hz.
  - apply Z.eqb_neq in Hnz. now rewrite Hnz.
Qed.

Lemma ShaderProgram_destroy_run `{FA : FloatArith} (o : ShaderProgram.t)
  (w : World) :
  ShaderProgram.destroy o w =
  (Returned (if decide (ShaderProgram.handle_ o = 0) then o
             else {| ShaderProgram.handle_ := 0;
                     ShaderProgram.uniforms_ := ShaderProgram.uniforms_ o |}),
   if decide (ShaderProgram.handle_ o = 0) then w
   else log_call (glDeleteProgram (ShaderProgram.handle_ o)) w).
Proof.
  unfold ShaderProgram.destroy.
  destruct (decide (ShaderProgram.handle_ o = 0)) as [Hz|Hnz].
  - now rewrite Hz.
  - apply Z.eqb_neq in Hnz. now rewrite Hnz.
Qed.

#[export] Instance Shader_laws `{FA : FloatArith} : GpuWrapperLaws Shader.t.
Proof.
  split; try reflexivity.
  - intros o w. eexists. apply Shader_destroy_run.
Qed.

#[export] Instance ShaderProgram_laws `{FA : FloatArith}
  : GpuWrapperLaws ShaderProgram.t.
Proof.
  split; try reflexivity.
  - intros o w. eexists. apply ShaderProgram_destroy_run.
Qed.

Section ListSwap.
Context {A : Type}.

Lemma insert_cons_Permutation (l : list A) (j : nat) (a b : A) :
  l !! j = Some b -> Permutation (b :: <[j := a]> l) (a :: l).
Proof.
  revert j. induction l as [|x l IH]; intros [|j] Hj; try discriminate.
  - injection Hj as ->. apply perm_swap.
  - cbn in Hj |- *. rewrite perm_swap, (IH _ Hj). apply perm_swap.
Qed.

Lemma insert_swap_Permutation (l : list A) (i j : nat) (a b : A) :
  i <> j -> l !! i = Some a -> l !! j = Some b ->
  Permutation (<[j := a]> (<[i := b]> l)) l.
Proof.
  revert i j. induction l as [|x l IH]; intros [|i] [|j] Hne Hi Hj;
    try discriminate; try congruence; cbn in *.
  - injection Hi as ->. now apply insert_cons_Permutation.
  - injection Hj as ->. now apply insert_cons_Permutation.
  - apply perm_skip, IH; auto.
Qed.

End ListSwap.

Section ObjectFacts.
Context `{FA : FloatArith} {T : Type} `{GW : !GpuWrapper T}
  `{GL : !GpuWrapperLaws T}.

Lemma run_move_handles (m : Move) (objs : list T) :
  exists zeros,
    Forall (fun h => h = 0) zeros /\
    Permutation (gw_handle <$> run_move m objs)
                (zeros ++ (gw_handle <$> objs)).
Proof.
  destruct m as [dst src|src]; cbn [run_move].
  - exists []. split; [constructor|]. cbn [app].
    destruct (objs !! dst) as [this|] eqn:Hdst; [|reflexivity].
    destruct (objs !! src) as [other|] eqn:Hsrc; [|reflexivity].
    destruct (decide (dst = src)) as [Heq|Hne]; [reflexivity|].
    pose proof (gw_move_assign_this this other) as Hthis.
    pose proof (gw_move_assign_other this other) as Hother.
    destruct (gw_move_assign this other) as [this' other'].
    cbn [fst snd] in Hthis, Hother.
    rewrite !list_fmap_insert, Hthis, Hother.
    apply insert_swap_Permutation; [exact Hne| |];
      rewrite list_lookup_fmap; [now rewrite Hdst | now rewrite Hsrc].
  - destruct (objs !! src) as [other|] eqn:Hsrc.
    + exists [0]. split; [repeat constructor|].
      unfold gw_move_construct.
      pose proof (gw_move_assign_this gw_default other) as Hthis.
      pose proof (gw_move_assign_other gw_default other) as Hother.
      destruct (gw_move_assign gw_default other) as [new other'].
      cbn [fst snd] in Hthis, Hother. rewrite gw_default_handle in Hother.
      rewrite fmap_app, list_fmap_insert, Hother.
      change (gw_handle <$> [new]) with [gw_handle new]. rewrite Hthis.
      change ([0] ++ (gw_handle <$> objs)) with (0 :: (gw_handle <$> objs)).
      rewrite <- Permutation_cons_append.
      apply insert_cons_Permutation.
      rewrite list_lookup_fmap. now rewrite Hsrc.
    + exists []. split; [constructor|reflexivity].
Qed.

Lemma filter_zeros (zeros hs : list GLuint) :
  Forall (fun h => h = 0) zeros ->
  filter (fun h => h <> 0) (zeros ++ hs) = filter (fun h => h <> 0) hs.
Proof.
  induction 1 as [|z zeros Hz _ IH]; [reflexivity|].
  cbn [app]. rewrite filter_cons_False by (intros Hnz; now apply Hnz).
  exact IH.
Qed.

Lemma run_move_live (m : Move) (objs : list T) :
  Permutation (live (run_move m objs)) (live objs).
Proof.
  unfold live.
  destruct (run_move_handles m objs) as (zeros & Hzeros & Hperm).
  rewrite Hperm. now rewrite filter_zeros.
Qed.

Lemma run_moves_live (ms : list Move) (objs : list T) :
  Permutation (live (run_moves ms objs)) (live objs).
Proof.
  revert objs. induction ms as [|m ms IH]; intros objs; [reflexivity|].
  unfold run_moves. cbn [foldl]. fold (run_moves ms (run_move m objs)).
  rewrite IH. apply run_move_live.
Qed.

(** Destroying the objects asks the driver to release the non-zero
    handles, one call each, in list order, and does nothing else. *)
Lemma destroy_all_run (objs : list T) (w : World) :
  destroy_all objs w =
  (Returned tt,
   {| gl_log := gl_log w ++ (gw_release <$> live objs);
      cout := cout w; cerr := cerr w; files := files w |}).
Proof.
  revert w. induction objs as [|o objs IH]; intros w.
  - unfold live. cbn. rewrite app_nil_r. now destruct w.
  - cbn [destroy_all]. unfold glm_bind.
    destruct (gw_destroy_run o w) as (o' & ->).
    rewrite IH. unfold live. cbn [fmap list_fmap].
    destruct (decide (gw_handle o = 0)) as [Hz|Hnz].
    + now rewrite filter_cons_False by (intros Hnz; now apply Hnz).
    + rewrite filter_cons_True by exact Hnz.
      unfold log_call. cbn [gl_log cout cerr files fmap list_fmap].
      now rewrite <- app_assoc.
Qed.

Lemma released_app (log : list GLCall) (hs : list GLuint) :
  released (T := T) (log ++ (gw_release <$> hs))
  = released (T := T) log ++ hs.
Proof.
  unfold released. rewrite omap_app. f_equal.
  induction hs as [|h hs IH]; [reflexivity|].
  cbn. now rewrite gw_is_release_release, IH.
Qed.

(** Whatever moves were made, destroying all the objects releases the
    non-zero handles the objects held before the moves, each as many
    times as it was held. *)
Lemma moves_then_destroy (ms : list Move) (objs : list T) (w : World) :
  exists w' handles,
    destroy_all (run_moves ms objs) w = (Returned tt, w') /\
    released (T := T) (gl_log w') = released (T := T) (gl_log w) ++ handles /\
    Permutation handles (live objs).
Proof.
  eexists _, (live (run_moves ms objs)).
  split; [apply destroy_all_run|]. cbn [gl_log].
  split; [apply released_app | apply run_moves_live].
Qed.

End ObjectFacts.

Section WrapperClaims.
Context `{FA : FloatArith}.
Variable drv : Driver.

(** C4, as the code has it. Move construction hands the handle to the
    new object and leaves zero in the source, whose destructor then makes
    no driver call. Move assignment exchanges the handles (and, for a
    program, the caches): the target gets the source's handle and the
    source keeps the target's previous one, which the source's destructor
    releases unless it is zero. After any sequence of moves, destroying
    all the objects releases exactly the non-zero handles the objects
    held at the start: the handles released are a permutation of them, so
    a handle held by one object is released once. *)
Theorem moves_exchange_handles_release_once (shaders : list Shader.t)
  (programs : list ShaderProgram.t) (ms : list Move) (w : World) :
  (forall other : Shader.t,
     Shader.handle_ (fst (Shader.move_construct other))
       = Shader.handle_ other /\
     Shader.handle_ (snd (Shader.move_construct other)) = 0 /\
     Shader.destroy (snd (Shader.move_construct other)) w
       = (Returned (snd (Shader.move_construct other)), w)) /\
  (forall this other : Shader.t,
     Shader.handle_ (fst (Shader.move_assign this other))
       = Shader.handle_ other /\
     Shader.handle_ (snd (Shader.move_assign this other))
       = Shader.handle_ this /\
     snd (Shader.destroy (snd (Shader.move_assign this other)) w)
       = if decide (Shader.handle_ this = 0) then w
         else log_call (glDeleteShader (Shader.handle_ this)) w) /\
  (exists w' handles,
     destroy_all (run_moves ms shaders) w = (Returned tt, w') /\
     released (T := Shader.t) (gl_log w')
       = released (T := Shader.t) (gl_log w) ++ handles /\
     Permutation handles
       (filter (fun h => h <> 0) (Shader.handle_ <$> shaders))) /\
  (forall other : ShaderProgram.t,
     fst (ShaderProgram.move_construct other) = other /\
     snd (ShaderProgram.move_construct other) = ShaderProgram.default /\
     ShaderProgram.destroy (snd (ShaderProgram.move_construct other)) w
       = (Returned (snd (ShaderProgram.move_construct other)), w)) /\
  (forall this other : ShaderProgram.t,
     ShaderProgram.move_assign this other = (other, this) /\
     snd (ShaderProgram.destroy (snd (ShaderProgram.move_assign this other)) w)
       = if decide (ShaderProgram.handle_ this = 0) then w
         else log_call (glDeleteProgram (ShaderProgram.handle_ this)) w) /\
  (exists w' handles,
     destroy_all (run_moves ms programs) w = (Returned tt, w') /\
     released (T := ShaderProgram.t) (gl_log w')
       = released (T := ShaderProgram.t) (gl_log w) ++ handles /\
     Permutation handles
       (filter (fun h => h <> 0) (ShaderProgram.handle_ <$> programs))).
Proof.
  split; [intros other; repeat split|].
  split.
  { intros this other. split; [reflexivity|]. split; [reflexivity|].
    now rewrite Shader_destroy_run. }
  split; [exact (moves_then_destroy (T := Shader.t) ms shaders w)|].
  split; [intros [h c]; repeat split|].
  split.
  { intros [h1 c1] [h2 c2]. split; [reflexivity|].
    now rewrite ShaderProgram_destroy_run. }
  exact (moves_then_destroy (T := ShaderProgram.t) ms programs w).
Qed.


End WrapperClaims.

(** ** The uniform cache over the life of a program *)

Section HeapFacts.
Context `{FA : FloatArith}.
Variable drv : Driver.
Hypothesis Hlogs : logs_failed_links drv.

Lemma program_eta (self : ShaderProgram.t) :
  {| ShaderProgram.handle_ := ShaderProgram.handle_ self;
     ShaderProgram.uniforms_ := ShaderProgram.uniforms_ self |} = self.
Proof. now destruct self. Qed.

Lemma holders_cons (name : string) (self : ShaderProgram.t)
  (objs : list ShaderProgram.t) :
  holders name (self :: objs)
  = ((if holds name self then 1 else 0) + holders name objs)%nat.
Proof.
  unfold holders. cbn [List.filter]. now destruct (holds name self).
Qed.

Lemma holders_Permutation (name : string) (objs objs' : list ShaderProgram.t) :
  Permutation objs objs' -> holders name objs = holders name objs'.
Proof.
  induction 1 as [|x l l' _ IH|x y l|l l' l'' _ IH1 _ IH2].
  - reflexivity.
  - now rewrite !holders_cons, IH.
  - rewrite !holders_cons. lia.
  - congruence.
Qed.

Lemma holders_insert (name : string) (objs : list ShaderProgram.t) (i : nat)
  (self self' : ShaderProgram.t) :
  objs !! i = Some self ->
  (holders name (<[i := self']> objs) + (if holds name self then 1 else 0)
   = holders name objs + (if holds name self' then 1 else 0))%nat.
Proof.
  revert i. induction objs as [|x objs IH]; intros [|i] Hi; try discriminate.
  - injection Hi as ->. cbn [insert list_insert]. rewrite !holders_cons. lia.
  - cbn in Hi. change (<[S i := self']> (x :: objs))
      with (x :: <[i := self']> objs).
    rewrite !holders_cons. specialize (IH _ Hi). lia.
Qed.

(** A move neither drops nor copies a cache: it goes where the handle
    goes. *)
Lemma run_move_holders (name : string) (m : Move)
  (objs : list ShaderProgram.t) :
  holders name (run_move m objs) = holders name objs.
Proof.
  destruct m as [dst src|src]; cbn [run_move].
  - destruct (objs !! dst) as [this|] eqn:Hdst; [|reflexivity].
    destruct (objs !! src) as [other|] eqn:Hsrc; [|reflexivity].
    destruct (decide (dst = src)) as [Heq|Hne]; [reflexivity|].
    cbn [gw_move_assign ShaderProgram_wrapper ShaderProgram.move_assign].
    rewrite !program_eta.
    apply holders_Permutation. now apply insert_swap_Permutation.
  - destruct (objs !! src) as [other|] eqn:Hsrc; [|reflexivity].
    unfold gw_move_construct.
    cbn [gw_move_assign gw_default ShaderProgram_wrapper
         ShaderProgram.move_assign].
    rewrite !program_eta.
    rewrite (holders_Permutation name _ (other :: <[src := ShaderProgram.default]> objs))
      by (symmetry; apply Permutation_cons_append).
    rewrite (holders_Permutation name _ (ShaderProgram.default :: objs))
      by now apply insert_cons_Permutation.
    now rewrite holders_cons.
Qed.

Lemma run_move_length (m : Move) (objs : list ShaderProgram.t) :
  (length objs <= length (run_move m objs))%nat.
Proof.
  destruct m as [dst src|src]; cbn [run_move].
  - destruct (objs !! dst); [|lia]. destruct (objs !! src); [|lia].
    destruct (decide (dst = src)); [lia|].
    destruct (gw_move_assign _ _). rewrite !length_insert. lia.
  - destruct (objs !! src); [|lia]. destruct (gw_move_construct _).
    rewrite length_app, length_insert. lia.
Qed.

(** Every step returns, and each [glGetUniformLocation] for [name] that
    it issues comes with one more cache that holds [name]. *)
Lemma run_step_effect (step : Step) (objs : list ShaderProgram.t) (w : World) :
  exists objs' w',
    run_step drv step objs w = (Returned objs', w') /\
    (length objs <= length objs')%nat /\
    (forall name,
       (count_calls (is_uniform_query name) w' + holders name objs
        = count_calls (is_uniform_query name) w + holders name objs')%nat).
Proof.
  destruct step as [i op|m]; cbn [run_step].
  - destruct (objs !! i) as [self|] eqn:Hi.
    + destruct (run_op_effect drv Hlogs op self w)
        as (self' & w' & calls & Hrun & Hlog & Hcount & Hcache).
      exists (<[i := self']> objs), w'. unfold glm_bind. rewrite Hrun.
      split; [reflexivity|]. split; [now rewrite length_insert|].
      intros name. rewrite (count_calls_app _ _ _ _ Hlog), Hcount.
      pose proof (holders_insert name objs i self self' Hi) as Hins.
      unfold holds in Hins at 2. rewrite Hcache in Hins.
      unfold holds, queries_of, cache_after in *.
      destruct (ShaderProgram.uniforms_ self !! name); [lia|].
      destruct (resolves name op); lia.
    + exists objs, w. repeat split; lia.
  - exists (run_move m objs), w. split; [reflexivity|].
    split; [apply run_move_length|].
    intros name. now rewrite run_move_holders.
Qed.

Lemma run_steps_effect (steps : list Step) (objs : list ShaderProgram.t)
  (w : World) :
  exists objs' w',
    run_steps drv steps objs w = (Returned objs', w') /\
    (length objs <= length objs')%nat /\
    (forall name,
       (count_calls (is_uniform_query name) w' + holders name objs
        = count_calls (is_uniform_query name) w + holders name objs')%nat).
Proof.
  revert objs w. induction steps as [|step steps IH]; intros objs w.
  - exists objs, w. repeat split; lia.
  - destruct (run_step_effect step objs w)
      as (objs1 & w1 & Hrun & Hlen & Hcount).
    destruct (IH objs1 w1) as (objs' & w' & Hrest & Hlen' & Hcount').
    exists objs', w'. cbn [run_steps]. unfold glm_bind. rewrite Hrun.
    split; [exact Hrest|]. split; [lia|].
    intros name. specialize (Hcount name). specialize (Hcount' name). lia.
Qed.

End HeapFacts.

(** The driver receives the names of NUL-free calls as they are. *)
Lemma names_NUL_free_c_str `{FA : FloatArith} (ops : list Op) :
  names_NUL_free ops = true ->
  Forall (fun name => c_str name = name) (flat_map op_names ops).
Proof.
  unfold names_NUL_free. induction ops as [|op ops IH]; [constructor|].
  cbn [forallb flat_map]. intros [Hop Hops]%andb_true_iff.
  apply Forall_app. split; [|now apply IH].
  clear IH Hops. induction (op_names op) as [|name names IHn]; [constructor|].
  cbn [forallb] in Hop. apply andb_true_iff in Hop as [Hname Hnames].
  constructor; [now apply c_str_NUL_free | now apply IHn].
Qed.

Section UniformClaim.
Context `{FA : FloatArith}.
Variable drv : Driver.

(** C3. Over the life of a program (any calls [before], a lookup of
    [name], any calls [between], a second lookup of [name], any calls
    [after]; names without NUL, so that the driver receives each name
    as it is logged; a driver that has a log for every failed link):
    the first lookup of [name] asks the driver once, returns the
    driver's answer to that very call and stores it, a negative answer
    included, with one line on [std::cerr] for such an answer; a lookup
    of a name that an earlier call resolved returns the stored value.
    The second lookup returns the same location, makes no driver call and
    changes neither the object nor the world. From a fresh program the
    driver is asked for the location of a name exactly once if some call
    resolves the name, and never otherwise. Moves keep this: over any
    run of method calls and moves on any objects, each
    [glGetUniformLocation] for [name] comes with one more cache that
    holds [name], and no move drops or copies a cache. [Attribute] keeps
    no cache: every call issues one [glGetAttribLocation] and returns
    what the driver answers to that call. *)
Theorem Uniform_cached_Attribute_not (before between after : list Op)
  (name other : string) (self : ShaderProgram.t) (w : World)
  (steps : list Step) (objs : list ShaderProgram.t) :
  logs_failed_links drv ->
  NUL_free name = true ->
  NUL_free other = true ->
  names_NUL_free (before ++ between ++ after) = true ->
  names_NUL_free (step_ops steps) = true ->
  (exists self1 w1 self3 w3 self4 w4,
     run_ops drv before ShaderProgram.default w = (Returned self1, w1) /\
     let handle := ShaderProgram.handle_ self1 in
     let first := ShaderProgram.uniforms_ self1 !! name in
     let answer := drv_GetUniformLocation drv (gl_log w1) handle name in
     let location :=
       match first with Some cached => cached | None => answer end in
     let self2 :=
       {| ShaderProgram.handle_ := handle;
          ShaderProgram.uniforms_ :=
            <[name := location]> (ShaderProgram.uniforms_ self1) |} in
     let w2 :=
       match first with
       | Some _ => w1
       | None => world_queried (glGetUniformLocation handle name) answer
                   (ShaderProgram.error_uniform name) w1
       end in
     (is_Some first <-> existsb (resolves name) before = true) /\
     ShaderProgram.Uniform drv name self1 w1 = (Returned (location, self2), w2) /\
     (first = None -> answer < 0 ->
      cerr w2 = cerr w1 ++ [ShaderProgram.error_uniform name]) /\
     run_ops drv between self2 w2 = (Returned self3, w3) /\
     ShaderProgram.Uniform drv name self3 w3 = (Returned (location, self3), w3) /\
     run_ops drv after self3 w3 = (Returned self4, w4) /\
     ShaderProgram.uniforms_ self4 !! name = Some location /\
     count_calls (is_uniform_query name) w4
     = S (count_calls (is_uniform_query name) w) /\
     count_calls (is_uniform_query other) w4
     = (count_calls (is_uniform_query other) w
        + if existsb (resolves other)
               (before ++ OpUniform name :: between ++ OpUniform name :: after)
          then 1 else 0)%nat) /\
  (c_str name = name /\ c_str other = other /\
   Forall (fun n => c_str n = n)
     (flat_map op_names (before ++ between ++ after)) /\
   Forall (fun n => c_str n = n) (flat_map op_names (step_ops steps))) /\
  (exists objs' w',
     run_steps drv steps objs w = (Returned objs', w') /\
     (length objs <= length objs')%nat /\
     (count_calls (is_uniform_query name) w' + holders name objs
      = count_calls (is_uniform_query name) w + holders name objs')%nat) /\
  (exists w',
     ShaderProgram.Attribute drv name self w
     = (Returned (drv_GetAttribLocation drv (gl_log w)
                    (ShaderProgram.handle_ self) name, self), w') /\
     gl_log w' = gl_log w ++ [glGetAttribLocation (ShaderProgram.handle_ self) name] /\
     count_calls (is_attrib_query name) w'
     = S (count_calls (is_attrib_query name) w)).
Proof.
  intros Hlogs Hname Hother Hops Hsteps.
  split; [|split; [|split]].
  - destruct (run_ops_cached drv Hlogs before ShaderProgram.default w)
      as (self1 & w1 & Hrun1 & Hholds).
    pose (handle := ShaderProgram.handle_ self1).
    pose (answer := drv_GetUniformLocation drv (gl_log w1) handle name).
    pose (location :=
      match ShaderProgram.uniforms_ self1 !! name with
      | Some cached => cached
      | None => answer
      end).
    pose (self2 :=
      {| ShaderProgram.handle_ := handle;
         ShaderProgram.uniforms_ :=
           <[name := location]> (ShaderProgram.uniforms_ self1) |}).
    pose (w2 :=
      match ShaderProgram.uniforms_ self1 !! name with
      | Some _ => w1
      | None => world_queried (glGetUniformLocation handle name) answer
                  (ShaderProgram.error_uniform name) w1
      end).
    assert (Hrun2 : ShaderProgram.Uniform drv name self1 w1
                    = (Returned (location, self2), w2)).
    { unfold location, self2, w2.
      destruct (ShaderProgram.uniforms_ self1 !! name) as [cached|] eqn:Hn.
      - rewrite (insert_id _ _ _ Hn). unfold handle. rewrite program_eta.
        now apply Uniform_hit.
      - now rewrite (Uniform_miss drv _ _ _ Hn). }
    pose proof (Uniform_caches _ _ _ _ _ _ _ Hrun2) as Hhit2.
    destruct (run_ops_effect drv Hlogs between self2 w2)
      as (self3 & w3 & Hrun3 & _ & Hkeep3).
    pose proof (Hkeep3 _ _ Hhit2) as Hhit3.
    pose proof (Uniform_hit drv _ _ w3 _ Hhit3) as Hrun3'.
    destruct (run_ops_effect drv Hlogs after self3 w3)
      as (self4 & w4 & Hrun4 & _ & Hkeep4).
    exists self1, w1, self3, w3, self4, w4.
    split; [exact Hrun1|]. cbv zeta.
    fold handle. fold answer. fold location. fold self2. fold w2.
    split.
    { rewrite Hholds. unfold ShaderProgram.default.
      cbn [ShaderProgram.uniforms_]. rewrite lookup_empty.
      split; [intros [[? [=]]|H]; exact H | now right]. }
    split; [exact Hrun2|].
    split.
    { intros Hmiss Hneg. unfold w2. rewrite Hmiss. unfold world_queried.
      cbn [cerr]. apply Z.ltb_lt in Hneg. now rewrite Hneg, orb_true_r. }
    split; [exact Hrun3|].
    split; [exact Hrun3'|]. split; [exact Hrun4|].
    split; [now apply Hkeep4|].
    assert (Hwhole :
      run_ops drv
        (before ++ OpUniform name :: between ++ OpUniform name :: after)
        ShaderProgram.default w = (Returned self4, w4)).
    { rewrite run_ops_app. unfold glm_bind at 1. rewrite Hrun1.
      rewrite (run_ops_Uniform _ _ _ _ _ _ _ _ Hrun2), run_ops_app.
      unfold glm_bind at 1. rewrite Hrun3.
      now rewrite (run_ops_Uniform _ _ _ _ _ _ _ _ Hrun3'). }
    destruct (run_ops_effect drv Hlogs
                (before ++ OpUniform name :: between ++ OpUniform name :: after)
                ShaderProgram.default w)
      as (self' & w' & Hrun & Hcount & _).
    rewrite Hwhole in Hrun. injection Hrun as <- <-.
    assert (Hall : forall n,
      count_calls (is_uniform_query n) w4
      = (count_calls (is_uniform_query n) w
         + if existsb (resolves n)
                (before ++ OpUniform name :: between ++ OpUniform name :: after)
           then 1 else 0)%nat).
    { intros n. rewrite Hcount. unfold ShaderProgram.default.
      cbn [ShaderProgram.uniforms_]. now rewrite lookup_empty. }
    split; [|apply Hall].
    rewrite Hall, existsb_app. cbn [existsb resolves].
    rewrite String.eqb_refl, orb_true_r. cbn [orb]. lia.
  - split; [now apply c_str_NUL_free|]. split; [now apply c_str_NUL_free|].
    split; now apply names_NUL_free_c_str.
  - destruct (run_steps_effect drv Hlogs steps objs w)
      as (objs' & w' & Hrun & Hlen & Hcount).
    exists objs', w'. split; [exact Hrun|]. split; [exact Hlen|]. apply Hcount.
  - rewrite Attribute_run. eexists. split; [reflexivity|].
    split; [reflexivity|].
    erewrite count_calls_app by reflexivity.
    cbn [List.filter is_attrib_query]. rewrite String.eqb_refl.
    cbn [length]. lia.
Qed.

End UniformClaim.

(** ** Runs on the driver stub *)

(** The stub has an info log of length 15 for every program. *)
Lemma stub_logs_failed_links (shader program : GLuint)
  (compile_status link_status : GLint) :
  logs_failed_links (SampleGL.stub shader program compile_status link_status).
Proof. intros history handle _. reflexivity. Qed.


(** Creation failure: the stub hands out the shader handle 0. *)
Lemma Shader_create_failure_throws_witness :
  let drv := SampleGL.stub 0 5 GL_TRUE GL_TRUE in
  drv_CreateShader drv (gl_log SampleGL.world0) GL_FRAGMENT_SHADER = 0 /\
  Shader.FromString true drv "void main() {}" GL_FRAGMENT_SHADER
    SampleGL.world0
  = (Thrown "[Error] Impossible to create a new Shader",
     {| gl_log := [glCreateShader GL_FRAGMENT_SHADER];
        cout := [];
        cerr := ["[Error] Impossible to create a new Shader"];
        files := files SampleGL.world0 |}).
Proof.
  intros drv. split; [reflexivity|].
  pose proof (Shader_create_failure_throws true drv
                "void main() {}" "quad.vert" GL_FRAGMENT_SHADER
                SampleGL.world0 eq_refl) as H.
  cbv zeta in H. destruct H as (_ & Hstring & _).
  rewrite Hstring. reflexivity.
Defined.

(** A file that is not there: the shader is compiled from the header
    alone. *)
Lemma FromFile_not_opened_witness :
  let drv := SampleGL.stub 3 5 GL_TRUE GL_TRUE in
  SampleGL.world0.(files) !! "missing.frag" = None /\
  Shader.FromFile false drv "missing.frag" GL_FRAGMENT_SHADER SampleGL.world0
  = (Returned {| Shader.handle_ := 3 |},
     {| gl_log := [glCreateShader GL_FRAGMENT_SHADER;
                   glShaderSource 3 ("#version 330" +:+ newline);
                   glCompileShader 3;
                   glGetShaderiv 3 GL_COMPILE_STATUS];
        cout := []; cerr := [];
        files := files SampleGL.world0 |}).
Proof.
  intros drv.
  assert (Hfile : SampleGL.world0.(files) !! "missing.frag" = None)
    by reflexivity.
  split; [exact Hfile|].
  destruct (FromFile_not_opened false drv "missing.frag" GL_FRAGMENT_SHADER
              SampleGL.world0 Hfile) as (_ & Hconstruct & _).
  rewrite Hconstruct. reflexivity.
Defined.

(** C10 as stated fails for a path that opens and cannot be read: for
    the directory "shaders" the read throws, where [FromString] of the
    empty string compiles the header and returns a shader. *)
Lemma FromFile_directory_throws :
  let drv := SampleGL.stub 3 5 GL_TRUE GL_TRUE in
  files SampleGL.world0 !! "shaders" = Some None /\
  Shader.FromFile false drv "shaders" GL_FRAGMENT_SHADER SampleGL.world0
    = (Thrown ios_failure_what, SampleGL.world0) /\
  fst (Shader.FromString false drv EmptyString GL_FRAGMENT_SHADER
         SampleGL.world0)
    = Returned {| Shader.handle_ := 3 |} /\
  Shader.FromFile false drv "shaders" GL_FRAGMENT_SHADER SampleGL.world0
    <> Shader.FromString false drv EmptyString GL_FRAGMENT_SHADER
         SampleGL.world0.
Proof. repeat split. discriminate. Qed.

(** Two lookups of a name the stub does not know, and a run over two
    objects in which the cache of the first is moved twice. *)
Lemma Uniform_cached_Attribute_not_witness :
  let drv := SampleGL.stub 3 9 GL_TRUE GL_TRUE in
  let before := [OpAddShader SampleMore.vertex_shader; OpLink] in
  let between := [OpUse; OpSetUniform "color" (Uniform1i 1)] in
  let after := [OpUnuse] in
  let steps := [Call 0 (OpUniform "color"); Moved (MoveAssign 1 0);
                Call 1 (OpUniform "color"); Moved (MoveConstruct 1);
                Call 2 (OpUniform "color"); Call 0 (OpUniform "color")] in
  let objs := [SampleGL.program5; ShaderProgram.default] in
  logs_failed_links drv /\
  NUL_free "nowhere" = true /\
  NUL_free "color" = true /\
  names_NUL_free (before ++ between ++ after) = true /\
  names_NUL_free (step_ops steps) = true /\
  (exists self4 w4,
     run_ops drv
       (before ++ OpUniform "nowhere" :: between ++ OpUniform "nowhere" :: after)
       ShaderProgram.default SampleGL.world0 = (Returned self4, w4) /\
     ShaderProgram.uniforms_ self4 !! "nowhere" = Some (-1) /\
     count_calls (is_uniform_query "nowhere") w4 = 1%nat /\
     count_calls (is_uniform_query "color") w4 = 1%nat) /\
  (exists objs' w',
     run_steps drv steps objs SampleGL.world0 = (Returned objs', w') /\
     count_calls (is_uniform_query "color") w' = 2%nat /\
     holders "color" objs' = 2%nat).
Proof.
  intros drv before between after steps objs.
  assert (Hlogs : logs_failed_links drv) by apply stub_logs_failed_links.
  split; [exact Hlogs|]. do 4 (split; [reflexivity|]).
  destruct (Uniform_cached_Attribute_not drv before between after
              "nowhere" "color" SampleGL.program5 SampleGL.world0 steps objs
              Hlogs eq_refl eq_refl eq_refl eq_refl)
    as ((self1 & w1 & self3 & w3 & self4 & w4 & Hrun1 & _ & Hrun2 & _ & Hrun3
         & Hrun3' & Hrun4 & Hcache & _) & _ & (objs' & w' & Hsteps & _) & _).
  split.
  - exists self4, w4. revert Hrun1. intros [= <- <-].
    revert Hrun3. intros [= <- <-]. revert Hrun4. intros [= <- <-].
    repeat split.
  - exists objs', w'. revert Hsteps. intros [= <- <-]. repeat split.
Defined.


(** C4 as stated fails for move assignment onto a wrapper that holds a
    handle: after [this = std::move(other)] with [this] holding 1 and
    [other] holding 2, the moved-from [other] holds 1, not 0, and its
    destructor calls [glDeleteShader(1)]. *)
Lemma move_assign_source_not_zeroed :
  let this := {| Shader.handle_ := 1 |} in
  let other := {| Shader.handle_ := 2 |} in
  let moved_from := snd (Shader.move_assign this other) in
  Shader.handle_ (fst (Shader.move_assign this other)) = 2 /\
  Shader.handle_ moved_from = 1 /\
  Shader.handle_ moved_from <> 0 /\
  gl_log (snd (Shader.destroy moved_from SampleGL.world0))
    = [glDeleteShader 1].
Proof. repeat split. discriminate. Qed.

(** Two lookups of a name the driver does not know, and two of one it
    knows, with a [Link] in between: each name is asked for once, the
    second lookup returns the first answer (-1, and 1 although the stub
    would now answer 4). *)
Example Uniform_twice_on_stub :
  let drv := SampleGL.stub 3 5 GL_TRUE GL_TRUE in
  let run :=
    (a <- ShaderProgram.Uniform drv "nowhere" SampleGL.program5 ;;
     b <- ShaderProgram.Uniform drv "color" (snd a) ;;
     p <- ShaderProgram.Link drv (snd b) ;;
     c <- ShaderProgram.Uniform drv "nowhere" p ;;
     d <- ShaderProgram.Uniform drv "color" (snd c) ;;
     glm_ret (fst a, fst b, fst c, fst d))%glm in
  fst (run SampleGL.world0) = Returned (-1, 1, -1, 1) /\
  gl_log (snd (run SampleGL.world0))
    = [glGetUniformLocation 5 "nowhere"; glGetUniformLocation 5 "color";
       glLinkProgram 5; glGetProgramiv 5 GL_LINK_STATUS] /\
  cerr (snd (run SampleGL.world0))
    = ["[Error] Uniform nowhere doesn't exist in program"].
Proof. repeat split. Qed.

(** Three shaders, moved around and then destroyed: the two handles are
    released once each. *)
Example moves_on_three_shaders :
  let objs := [ {| Shader.handle_ := 1 |}; {| Shader.handle_ := 2 |};
                Shader.default ] in
  let ms := [MoveAssign 0 1; MoveConstruct 0; MoveAssign 2 3; MoveAssign 1 1] in
  let final := run_moves (FA := IEEE.arith) ms objs in
  Shader.handle_ <$> final = [0; 1; 2; 0] /\
  gl_log (snd (destroy_all final SampleGL.world0))
    = [glDeleteShader 1; glDeleteShader 2].
Proof. repeat split. Qed.

(** * Further properties *)

(** ** The constructor of [Shader] *)

Section ShaderMore.
Context `{FA : FloatArith}.
Variable EMSCRIPTEN : bool.
Variable drv : Driver.


Lemma released_snoc_other (log calls : list GLCall) :
  Forall (fun c => match c with glDeleteShader _ => False | _ => True end)
    calls ->
  released (T := Shader.t) (log ++ calls) = released (T := Shader.t) log.
Proof.
  intros Hcalls. unfold released. rewrite omap_app.
  assert (Hnone : omap (gw_is_release (T := Shader.t)) calls = []).
  { induction Hcalls as [|c calls Hc _ IH]; [reflexivity|].
    cbn [omap list_omap]. destruct c; try contradiction; exact IH. }
  rewrite Hnone. apply app_nil_r.
Qed.

(** X2. The constructor never asks the driver to delete the shader
    object it created, however it ends: on a compile error the object is
    still allocated when the process exits. *)
Theorem Shader_construct_never_releases (content : string) (type : GLenum)
  (w : World) :
  released (T := Shader.t) (gl_log (snd (Shader.construct drv content type w)))
  = released (T := Shader.t) (gl_log w).
Proof.
  set (handle := drv_CreateShader drv (gl_log w) type).
  destruct (decide (handle = 0)) as [Hzero|Hcreated].
  - rewrite (construct_create_failure drv content type w Hzero).
    cbn [snd world_create_failed gl_log].
    apply released_snoc_other. repeat constructor.
  - destruct (decide
      (drv_GetShaderiv drv
         (gl_log w ++ compile_calls type handle (c_str content))
         handle GL_COMPILE_STATUS = GL_TRUE)) as [Hok|Hko].
    + rewrite (construct_success drv content type w Hcreated Hok).
      cbn [snd gl_log]. apply released_snoc_other.
      unfold compile_calls. repeat constructor.
    + rewrite (construct_compile_failure drv content type w Hcreated Hko).
      unfold world_compile_failed, compile_calls. cbn [snd gl_log].
      rewrite <- !app_assoc. apply released_snoc_other.
      repeat constructor.
Qed.

Lemma c_str_cut (s t : string) :
  NUL_free s = true -> c_str (s +:+ String NUL t) = s.
Proof.
  intros Hs. rewrite c_str_app by now apply c_str_NUL_free.
  cbn [c_str]. rewrite Ascii.eqb_refl.
  induction s as [|c s IH]; [reflexivity|].
  cbn [NUL_free] in Hs. apply andb_true_iff in Hs as [_ Hs].
  change (String c s +:+ EmptyString)%string
    with (String c (s +:+ EmptyString)).
  now rewrite IH.
Qed.

Lemma c_str_up_to_NUL (s : string) :
  c_str (s +:+ String NUL EmptyString) = c_str s.
Proof.
  induction s as [|c s IH]; [reflexivity|].
  change (String c s +:+ String NUL EmptyString)%string
    with (String c (s +:+ String NUL EmptyString)).
  cbn [c_str]. destruct (Ascii.eqb c NUL); [reflexivity|]. now rewrite IH.
Qed.

(** X3. When the shader object is created, the text [FromString] hands
    to [glShaderSource] is the header followed by the content up to its
    first NUL: all of the content when it holds no NUL, and only the part
    before the first NUL otherwise. *)
Theorem FromString_source_text (content : string) (type : GLenum)
  (w : World) :
  let handle := drv_CreateShader drv (gl_log w) type in
  handle <> 0 ->
  (exists rest,
     gl_log (snd (Shader.FromString EMSCRIPTEN drv content type w))
     = gl_log w ++
       glCreateShader type ::
       glShaderSource handle
         (Shader.shader_header EMSCRIPTEN +:+ c_str content) ::
       glCompileShader handle :: rest) /\
  (NUL_free content = true -> c_str content = content) /\
  (forall before after,
     content = (before +:+ String NUL after)%string ->
     NUL_free before = true -> c_str content = before).
Proof.
  intros handle Hcreated. split; [|split].
  - unfold Shader.FromString.
    set (buffer := (Shader.shader_header EMSCRIPTEN +:+ content
                    +:+ String NUL EmptyString)%string).
    assert (Htext : c_str buffer
                    = (Shader.shader_header EMSCRIPTEN +:+ c_str content)%string).
    { unfold buffer. rewrite c_str_buffer. now rewrite c_str_up_to_NUL. }
    destruct (decide
      (drv_GetShaderiv drv
         (gl_log w ++ compile_calls type handle (c_str buffer))
         handle GL_COMPILE_STATUS = GL_TRUE)) as [Hok|Hko].
    + rewrite (construct_success drv buffer type w Hcreated Hok).
      cbn [snd gl_log]. unfold compile_calls. rewrite Htext.
      eexists. cbn [app]. reflexivity.
    + rewrite (construct_compile_failure drv buffer type w Hcreated Hko).
      unfold world_compile_failed, compile_calls. cbn [snd gl_log].
      rewrite Htext, <- !app_assoc. eexists. cbn [app]. reflexivity.
  - apply c_str_NUL_free.
  - intros before after -> Hfree. now apply c_str_cut.
Qed.

End ShaderMore.

(** ** Destructors *)

Section DestructorMore.
Context `{FA : FloatArith}.

(** X4. The destructors release at most once: a destructor asks the
    driver to release a non-zero handle and leaves zero in the object, so
    running it again on what it left makes no driver call; for the
    handle zero it makes no call in the first place. *)
Theorem destroy_twice (shader : Shader.t) (program : ShaderProgram.t)
  (w : World) :
  (exists shader' w',
     Shader.destroy shader w = (Returned shader', w') /\
     Shader.handle_ shader' = 0 /\
     gl_log w' = gl_log w ++
       (if decide (Shader.handle_ shader = 0) then []
        else [glDeleteShader (Shader.handle_ shader)]) /\
     Shader.destroy shader' w' = (Returned shader', w')) /\
  (exists program' w',
     ShaderProgram.destroy program w = (Returned program', w') /\
     ShaderProgram.handle_ program' = 0 /\
     ShaderProgram.uniforms_ program' = ShaderProgram.uniforms_ program /\
     gl_log w' = gl_log w ++
       (if decide (ShaderProgram.handle_ program = 0) then []
        else [glDeleteProgram (ShaderProgram.handle_ program)]) /\
     ShaderProgram.destroy program' w' = (Returned program', w')).
Proof.
  split.
  - rewrite Shader_destroy_run.
    destruct (decide (Shader.handle_ shader = 0)) as [Hz|Hnz].
    + exists shader, w. rewrite app_nil_r. repeat split; try assumption.
      unfold Shader.destroy. now rewrite Hz.
    + eexists _, _. repeat split.
  - rewrite ShaderProgram_destroy_run.
    destruct (decide (ShaderProgram.handle_ program = 0)) as [Hz|Hnz].
    + exists program, w. rewrite app_nil_r. repeat split; try assumption.
      unfold ShaderProgram.destroy. now rewrite Hz.
    + eexists _, _. repeat split.
Qed.

End DestructorMore.

(** ** [AddShader] and the program handle *)

Section AddShaderMore.
Context `{FA : FloatArith}.
Variable drv : Driver.

Lemma AddShader_attached (shader : Shader.t) (self : ShaderProgram.t)
  (w : World) :
  ShaderProgram.handle_ self <> 0 ->
  ShaderProgram.AddShader drv shader self w =
  (Returned self,
   log_call (glAttachShader (ShaderProgram.handle_ self)
               (Shader.handle_ shader)) w).
Proof.
  intros Hnz. unfold ShaderProgram.AddShader. run_glm.
  apply Z.eqb_neq in Hnz. now rewrite Hnz.
Qed.

Lemma AddShader_created (shader : Shader.t) (self : ShaderProgram.t)
  (w : World) :
  ShaderProgram.handle_ self = 0 ->
  let handle := drv_CreateProgram drv (gl_log w) in
  ShaderProgram.AddShader drv shader self w =
  (Returned {| ShaderProgram.handle_ := handle;
               ShaderProgram.uniforms_ := ShaderProgram.uniforms_ self |},
   {| gl_log := gl_log w ++ [glCreateProgram;
                             glAttachShader handle (Shader.handle_ shader)];
      cout := cout w;
      cerr := cerr w ++ (if handle =? 0 then [Shader.error_create] else []);
      files := files w |}).
Proof.
  intros Hz handle. unfold ShaderProgram.AddShader. run_glm.
  rewrite Hz. cbn [Z.eqb]. run_glm. fold handle.
  destruct (handle =? 0); run_glm; cbn [ShaderProgram.handle_];
    rewrite <- ?app_assoc, ?app_nil_r; reflexivity.
Qed.

(** X5. The program object is created lazily and once: on a program
    without a handle, when [glCreateProgram] gives a non-zero handle, two
    calls of [AddShader] make the three driver calls create, attach,
    attach, both attachments to the new handle; the second call does not
    create again, nothing is logged, and the cache is untouched. *)
Theorem AddShader_creates_once (vertex fragment : Shader.t)
  (self : ShaderProgram.t) (w : World) :
  ShaderProgram.handle_ self = 0 ->
  let handle := drv_CreateProgram drv (gl_log w) in
  handle <> 0 ->
  (self1 <- ShaderProgram.AddShader drv vertex self ;;
   ShaderProgram.AddShader drv fragment self1)%glm w =
  (Returned {| ShaderProgram.handle_ := handle;
               ShaderProgram.uniforms_ := ShaderProgram.uniforms_ self |},
   {| gl_log := gl_log w ++
                [glCreateProgram;
                 glAttachShader handle (Shader.handle_ vertex);
                 glAttachShader handle (Shader.handle_ fragment)];
      cout := cout w; cerr := cerr w; files := files w |}).
Proof.
  intros Hz handle Hnz. unfold glm_bind at 1.
  rewrite (AddShader_created vertex self w Hz). fold handle.
  rewrite AddShader_attached by exact Hnz.
  apply Z.eqb_neq in Hnz. rewrite Hnz.
  unfold log_call. cbn [gl_log cout cerr files ShaderProgram.handle_].
  now rewrite <- !app_assoc, app_nil_r.
Qed.

(** X6. When [glCreateProgram] gives 0, [AddShader] writes its message
    to [std::cerr] and carries on: it attaches the shader to program 0,
    returns, and leaves the object without a handle, so that the next
    [AddShader] asks the driver for a program again. *)
Theorem AddShader_create_failure (shader next : Shader.t)
  (self : ShaderProgram.t) (w : World) :
  ShaderProgram.handle_ self = 0 ->
  drv_CreateProgram drv (gl_log w) = 0 ->
  exists w',
    ShaderProgram.AddShader drv shader self w = (Returned self, w') /\
    gl_log w' = gl_log w ++ [glCreateProgram;
                              glAttachShader 0 (Shader.handle_ shader)] /\
    cerr w' = cerr w ++ ["[Error] Impossible to create a new Shader"] /\
    cout w' = cout w /\
    exists self'' w'',
      ShaderProgram.AddShader drv next self w' = (Returned self'', w'') /\
      gl_log w'' = gl_log w' ++
        [glCreateProgram;
         glAttachShader (drv_CreateProgram drv (gl_log w'))
           (Shader.handle_ next)].
Proof.
  intros Hz Hfail. eexists.
  rewrite (AddShader_created shader self w Hz), Hfail. cbn [Z.eqb].
  split.
  { destruct self as [h c]. cbn in Hz. now subst h. }
  repeat split.
  eexists _, _. rewrite AddShader_created by exact Hz.
  split; reflexivity.
Qed.

End AddShaderMore.

Section HandleMore.
Context `{FA : FloatArith}.
Variable drv : Driver.
Hypothesis Hlogs : logs_failed_links drv.

Lemma bound_programs_app (log calls : list GLCall) :
  bound_programs (log ++ calls) = bound_programs log ++ bound_programs calls.
Proof. apply omap_app. Qed.

Lemma Uniform_keeps_handle (name : string) (self : ShaderProgram.t)
  (w : World) :
  exists location self' w' calls,
    ShaderProgram.Uniform drv name self w = (Returned (location, self'), w') /\
    ShaderProgram.handle_ self' = ShaderProgram.handle_ self /\
    gl_log w' = gl_log w ++ calls /\
    bound_programs calls = [].
Proof.
  destruct (ShaderProgram.uniforms_ self !! name) as [location|] eqn:Hn.
  - exists location, self, w, []. rewrite (Uniform_hit _ _ _ _ _ Hn).
    now rewrite app_nil_r.
  - eexists _, _, _, [_]. rewrite (Uniform_miss _ _ _ _ Hn).
    repeat split.
Qed.

(** A method call changes the handle only when it is [AddShader] on an
    object without one, and asks [glUseProgram] for nothing but the
    object's own handle ([Use]) and zero ([Unuse]). *)
Lemma run_op_handle (op : Op) (self : ShaderProgram.t) (w : World) :
  exists self' w',
    run_op drv op self w = (Returned self', w') /\
    ShaderProgram.handle_ self' =
      (if is_AddShader op && (ShaderProgram.handle_ self =? 0)
       then drv_CreateProgram drv (gl_log w)
       else ShaderProgram.handle_ self) /\
    bound_programs (gl_log w') = bound_programs (gl_log w) ++ binds op self.
Proof.
  destruct op as [shader| |n|n|n size stride offset normalize type|n value| |];
    cbn [run_op is_AddShader binds andb]; rewrite ?app_nil_r.
  - (* AddShader *)
    destruct (decide (ShaderProgram.handle_ self = 0)) as [Hz|Hnz].
    + rewrite (AddShader_created drv shader self w Hz), Hz.
      eexists _, _. split; [reflexivity|]. split; [reflexivity|].
      cbn [gl_log]. rewrite bound_programs_app. apply app_nil_r.
    + rewrite (AddShader_attached drv shader self w Hnz).
      apply Z.eqb_neq in Hnz. rewrite Hnz.
      eexists _, _. split; [reflexivity|]. split; [reflexivity|].
      unfold log_call. cbn [gl_log]. rewrite bound_programs_app.
      apply app_nil_r.
  - (* Link *)
    destruct (Z.eq_dec
      (drv_GetProgramiv drv
         (gl_log w ++ [glLinkProgram (ShaderProgram.handle_ self)])
         (ShaderProgram.handle_ self) GL_LINK_STATUS) GL_TRUE) as [Hok|Hko].
    + rewrite (Link_success _ _ _ Hok). eexists _, _.
      split; [reflexivity|]. split; [reflexivity|].
      cbn [gl_log]. rewrite bound_programs_app. apply app_nil_r.
    + rewrite (Link_failure _ _ _ Hko
                 (logs_failed_links_here _ _ _ Hlogs Hko)).
      eexists _, _.
      split; [reflexivity|]. split; [reflexivity|].
      unfold world_link_failed. cbn [gl_log].
      rewrite !bound_programs_app. cbn. now rewrite !app_nil_r.
  - (* Uniform *)
    destruct (Uniform_keeps_handle n self w)
      as (location & self' & w' & calls & Hrun & Hhandle & Hlog & Hbound).
    exists self', w'. unfold glm_bind. rewrite Hrun.
    split; [reflexivity|]. split; [exact Hhandle|].
    rewrite Hlog, bound_programs_app, Hbound. apply app_nil_r.
  - (* Attribute *)
    unfold glm_bind. rewrite Attribute_run. eexists _, _.
    split; [reflexivity|]. split; [reflexivity|].
    unfold world_queried. cbn [gl_log]. rewrite bound_programs_app.
    apply app_nil_r.
  - (* SetAttribute *)
    unfold ShaderProgram.SetAttribute, glm_bind. rewrite Attribute_run.
    run_glm. eexists _, _. split; [reflexivity|]. split; [reflexivity|].
    unfold world_queried. cbn [gl_log]. rewrite !bound_programs_app.
    cbn. now rewrite !app_nil_r.
  - (* SetUniform *)
    destruct (Uniform_keeps_handle n self w)
      as (location & self' & w' & calls & Hrun & Hhandle & Hlog & Hbound).
    unfold ShaderProgram.SetUniform, glm_bind. rewrite Hrun. run_glm.
    eexists _, _. split; [reflexivity|]. split; [exact Hhandle|].
    cbn [gl_log]. rewrite Hlog, !bound_programs_app, Hbound.
    cbn. now rewrite !app_nil_r.
  - (* Use *)
    eexists _, _. split; [reflexivity|]. split; [reflexivity|].
    unfold log_call. cbn [gl_log]. now rewrite bound_programs_app.
  - (* Unuse *)
    eexists _, _. split; [reflexivity|]. split; [reflexivity|].
    unfold log_call. cbn [gl_log]. now rewrite bound_programs_app.
Qed.

Lemma run_ops_handle (ops : list Op) (self : ShaderProgram.t) (w : World) :
  ShaderProgram.handle_ self <> 0 \/ forallb (fun op => negb (is_AddShader op)) ops = true ->
  exists self' w' bound,
    run_ops drv ops self w = (Returned self', w') /\
    ShaderProgram.handle_ self' = ShaderProgram.handle_ self /\
    bound_programs (gl_log w') = bound_programs (gl_log w) ++ bound /\
    Forall (fun p => p = ShaderProgram.handle_ self \/ p = 0) bound.
Proof.
  revert self w. induction ops as [|op ops IH]; intros self w Hstable.
  - exists self, w, []. rewrite app_nil_r. repeat split. constructor.
  - destruct (run_op_handle op self w) as (self1 & w1 & Hrun & Hhandle & Hbound).
    assert (Hsame : ShaderProgram.handle_ self1 = ShaderProgram.handle_ self).
    { rewrite Hhandle. destruct Hstable as [Hnz|Hnone].
      - apply Z.eqb_neq in Hnz. rewrite Hnz. now rewrite andb_false_r.
      - cbn [forallb] in Hnone. apply andb_true_iff in Hnone as [Hop _].
        apply negb_true_iff in Hop. now rewrite Hop. }
    destruct (IH self1 w1) as (self' & w' & bound & Hrest & Hhandle' & Hbound' & Hall).
    { rewrite Hsame. destruct Hstable as [Hnz|Hnone]; [now left|right].
      cbn [forallb] in Hnone. now apply andb_true_iff in Hnone as [_ Hrest]. }
    exists self', w', (binds op self ++ bound).
    cbn [run_ops]. unfold glm_bind. rewrite Hrun.
    split; [exact Hrest|]. split; [congruence|].
    split; [now rewrite Hbound', Hbound, app_assoc|].
    apply Forall_app. split.
    + clear. destruct op; cbn [binds];
        repeat first [apply Forall_nil | apply Forall_cons]; auto.
    + rewrite Hsame in Hall. exact Hall.
Qed.

(** X7. Once a program has a handle no method call changes it: after
    any sequence of calls the object holds the same handle, and every
    [glUseProgram] the calls made was given that handle or zero. *)
Theorem handle_is_stable (ops : list Op) (self : ShaderProgram.t)
  (w : World) :
  ShaderProgram.handle_ self <> 0 ->
  exists self' w' bound,
    run_ops drv ops self w = (Returned self', w') /\
    ShaderProgram.GetHandle self' = ShaderProgram.GetHandle self /\
    bound_programs (gl_log w') = bound_programs (gl_log w) ++ bound /\
    Forall (fun p => p = ShaderProgram.handle_ self \/ p = 0) bound.
Proof. intros Hnz. apply run_ops_handle. now left. Qed.

(** X8. A program that was never given a shader never binds anything:
    from a default-constructed program, whatever calls other than
    [AddShader] are made ([Link], [Use], lookups, uploads), the handle
    stays zero and every [glUseProgram] is [glUseProgram(0)]. *)
Theorem empty_program_binds_nothing (ops : list Op) (w : World) :
  forallb (fun op => negb (is_AddShader op)) ops = true ->
  exists self' w' bound,
    run_ops drv ops ShaderProgram.default w = (Returned self', w') /\
    ShaderProgram.GetHandle self' = 0 /\
    bound_programs (gl_log w') = bound_programs (gl_log w) ++ bound /\
    Forall (fun p => p = 0) bound.
Proof.
  intros Hnone.
  destruct (run_ops_handle ops ShaderProgram.default w (or_intror Hnone))
    as (self' & w' & bound & Hrun & Hhandle & Hbound & Hall).
  exists self', w', bound. repeat split; try assumption.
  eapply Forall_impl; [exact Hall|]. cbn. intros p [Hp|Hp]; exact Hp.
Qed.

End HandleMore.

(** ** Lookups that miss *)

Section MissMore.
Context `{FA : FloatArith}.
Variable drv : Driver.

(** X9. A missing attribute does not stop [SetAttribute]: when the
    driver answers the lookup with a negative location, the four-argument
    overload writes one line to [std::cerr] and still enables and sets an
    attribute array, as [GL_FLOAT] and not normalised. Both entry points
    take the index as a [GLuint], so the index the driver receives is the
    location converted to unsigned: a location of [GLint] range becomes
    [location + 2 ^ 32], and -1 becomes 4294967295. Nothing is cached and
    the program is unchanged. *)
Theorem SetAttribute_missing (name : string) (size : GLint)
  (stride : GLsizei) (offset : GLuint) (self : ShaderProgram.t) (w : World) :
  let handle := ShaderProgram.handle_ self in
  let location := drv_GetAttribLocation drv (gl_log w) handle name in
  location < 0 ->
  let index := GLuint_of_GLint location in
  exists w',
    ShaderProgram.SetAttribute_float drv name size stride offset self w
    = (Returned self, w') /\
    gl_log w' = gl_log w ++
      [glGetAttribLocation handle name;
       glEnableVertexAttribArray index;
       glVertexAttribPointer index size GL_FLOAT GL_FALSE stride offset] /\
    (- 2 ^ 31 <= location -> index = location + 2 ^ 32) /\
    (location = -1 -> index = 4294967295) /\
    cerr w' = cerr w ++
      [("[Error] Attribute " +:+ name +:+ " doesn't exist in program")%string] /\
    cout w' = cout w.
Proof.
  intros handle location Hneg index. eexists.
  unfold ShaderProgram.SetAttribute_float, ShaderProgram.SetAttribute,
    glm_bind.
  rewrite Attribute_run. fold handle. fold location. run_glm.
  split; [reflexivity|]. unfold world_queried. cbn [gl_log cout cerr files].
  pose proof Hneg as Hltb. apply Z.ltb_lt in Hltb. rewrite Hltb, orb_true_r.
  rewrite <- !app_assoc. split; [reflexivity|].
  split.
  { intros Hmin. unfold index, GLuint_of_GLint.
    symmetry. apply (Z.mod_unique_pos _ _ (-1)); lia. }
  split; [|split; reflexivity].
  intros Hminus. unfold index. now rewrite Hminus.
Qed.

(** X10. A missing uniform is reported once: when the driver answers
    the first lookup of [name] with a negative location, two calls of
    [SetUniform] make one [glGetUniformLocation] and two uploads, both to
    that negative location, and write the error line to [std::cerr] one
    time only. *)
Theorem SetUniform_missing_twice (name : string) (v1 v2 : UniformValue)
  (self : ShaderProgram.t) (w : World) :
  let handle := ShaderProgram.handle_ self in
  let location := drv_GetUniformLocation drv (gl_log w) handle name in
  ShaderProgram.uniforms_ self !! name = None ->
  location < 0 ->
  exists self' w',
    (self1 <- ShaderProgram.SetUniform drv name v1 self ;;
     ShaderProgram.SetUniform drv name v2 self1)%glm w
    = (Returned self', w') /\
    gl_log w' = gl_log w ++
      [glGetUniformLocation handle name;
       glUniform location v1; glUniform location v2] /\
    cerr w' = cerr w ++
      [("[Error] Uniform " +:+ name +:+ " doesn't exist in program")%string] /\
    ShaderProgram.uniforms_ self' !! name = Some location.
Proof.
  intros handle location Hmiss Hneg. eexists _, _.
  unfold ShaderProgram.SetUniform, glm_bind at 1 2.
  rewrite (Uniform_miss _ _ _ _ Hmiss). fold handle. fold location.
  run_glm.
  rewrite (Uniform_hit drv name _ _ location)
    by (cbn [ShaderProgram.uniforms_]; apply lookup_insert_eq).
  run_glm. split; [reflexivity|].
  unfold world_queried. cbn [gl_log cout cerr files ShaderProgram.uniforms_].
  apply Z.ltb_lt in Hneg. rewrite Hneg, orb_true_r.
  rewrite <- !app_assoc. split; [reflexivity|]. split; [reflexivity|].
  apply lookup_insert_eq.
Qed.

(** X11. The cache moves with the handle: after [this = std::move(other)]
    a lookup on [this] of a name that [other] had resolved returns
    [other]'s location without a driver call, and a name that [other]
    had not resolved is asked of the driver, for [other]'s former handle,
    whether or not [this] had resolved it before the move. *)
Theorem move_carries_cache (name fresh : string) (location : GLint)
  (this other : ShaderProgram.t) (w : World) :
  ShaderProgram.uniforms_ other !! name = Some location ->
  ShaderProgram.uniforms_ other !! fresh = None ->
  let this' := fst (ShaderProgram.move_assign this other) in
  ShaderProgram.Uniform drv name this' w = (Returned (location, this'), w) /\
  exists this'' w'',
    ShaderProgram.Uniform drv fresh this' w
    = (Returned (drv_GetUniformLocation drv (gl_log w)
                   (ShaderProgram.handle_ other) fresh, this''), w'') /\
    gl_log w'' = gl_log w ++
      [glGetUniformLocation (ShaderProgram.handle_ other) fresh].
Proof.
  intros Hhit Hmiss this'. split.
  - now apply Uniform_hit.
  - eexists _, _. rewrite Uniform_miss by exact Hmiss. split; reflexivity.
Qed.

End MissMore.

(** ** Exclusive ownership *)

Section OwnershipMore.
Context `{FA : FloatArith}.

(** X12. Moves keep ownership exclusive: if no non-zero handle is held
    by two objects, then after any sequence of move assignments and move
    constructions no non-zero handle is held by two objects either, for
    shaders and for programs. *)
Theorem moves_keep_ownership_exclusive (shaders : list Shader.t)
  (programs : list ShaderProgram.t) (ms : list Move) :
  NoDup (filter (fun h => h <> 0) (Shader.handle_ <$> shaders)) ->
  NoDup (filter (fun h => h <> 0) (ShaderProgram.handle_ <$> programs)) ->
  NoDup (filter (fun h => h <> 0)
           (Shader.handle_ <$> run_moves ms shaders)) /\
  NoDup (filter (fun h => h <> 0)
           (ShaderProgram.handle_ <$> run_moves ms programs)).
Proof.
  intros Hshaders Hprograms. split.
  - pose proof (run_moves_live (T := Shader.t) ms shaders) as Hperm.
    unfold live in Hperm. cbn [gw_handle Shader_wrapper] in Hperm.
    now rewrite Hperm.
  - pose proof (run_moves_live (T := ShaderProgram.t) ms programs) as Hperm.
    unfold live in Hperm. cbn [gw_handle ShaderProgram_wrapper] in Hperm.
    now rewrite Hperm.
Qed.

End OwnershipMore.

(** ** More on the sprite geometry *)

Section SpriteMore.
Context `{FA : FloatArith}.

(** X13. [SetTextureRectangle] depends on the sprite only through its
    texture: it fails exactly when the sprite has none and keeps the
    texture otherwise; it discards the geometry it finds, so setting a
    rectangle after another one, or setting the same one twice, gives
    what setting the last one alone gives; and on the sprite of a
    framebuffer it gives the geometry of [Sprite(texture, rectangle)] on
    the color texture, without the vertical flip. *)
Theorem SetTextureRectangle_overwrites (first last : Rectangle)
  (self : Sprite) (framebuffer : Framebuffer) :
  texture_ <$> SetTextureRectangle last self = Some <$> texture_ self /\
  (SetTextureRectangle first self ≫= SetTextureRectangle last)
    = SetTextureRectangle last self /\
  (SetTextureRectangle last self ≫= SetTextureRectangle last)
    = SetTextureRectangle last self /\
  SetTextureRectangle last (Sprite_of_framebuffer framebuffer)
    = Sprite_of_texture_rectangle (color_texture framebuffer) last.
Proof.
  unfold SetTextureRectangle, Sprite_of_texture_rectangle.
  destruct self as [[tex|] va]; repeat split.
Qed.

End SpriteMore.

(** *** In IEEE arithmetic *)

Section SpriteIEEE.

Lemma ieee_over_zero_not_finite (x : spec_float) :
  IEEE.is_finite
    (IEEE.round_to IEEE.prec32 IEEE.emax32
       (SFdiv IEEE.prec64 IEEE.emax64 x
          (IEEE.of_int IEEE.prec64 IEEE.emax64 0))) = false.
Proof. destruct x as [[]|[]| |[] m e]; reflexivity. Qed.

(** X15. A texture of width zero is no error either: in IEEE arithmetic
    the division by the width gives an infinity or a NaN, and
    [SetTextureRectangle] returns six vertices none of which has a finite
    u coordinate, whatever the rectangle. *)
Theorem SetTextureRectangle_zero_width_texture
  (rectangle : @Rectangle IEEE.arith) (self : @Sprite IEEE.arith)
  (tex : Texture) :
  texture_ self = Some tex ->
  tex_width tex = 0 ->
  exists self',
    SetTextureRectangle rectangle self = Some self' /\
    length (vertex_array_ self') = 6%nat /\
    Forall (fun v => float_is_finite (vx (uv v)) = false)
      (vertex_array_ self').
Proof.
  intros Htex Hzero. eexists.
  split; [apply (SetTextureRectangle_some _ _ _ Htex)|].
  split; [reflexivity|].
  unfold SetVertexArray, six_vertices, plus_half_over, minus_half_over.
  cbn [vertex_array_ uv vx]. rewrite Hzero.
  repeat (apply Forall_cons; split;
          [exact (ieee_over_zero_not_finite _)|]).
  apply Forall_nil. exact I.
Qed.

End SpriteIEEE.

(** ** The further properties on concrete inputs *)

Lemma FromString_source_text_witness :
  let drv := SampleGL.stub 3 5 GL_TRUE GL_TRUE in
  drv_CreateShader drv (gl_log SampleGL.world0) GL_VERTEX_SHADER <> 0 /\
  exists rest,
    gl_log (snd (Shader.FromString false drv SampleMore.text_with_NUL
                   GL_VERTEX_SHADER SampleGL.world0))
    = glCreateShader GL_VERTEX_SHADER ::
      glShaderSource 3 ("#version 330" +:+ newline +:+ "void main() {}") ::
      glCompileShader 3 :: rest.
Proof.
  intros drv.
  assert (Hcreated :
    drv_CreateShader drv (gl_log SampleGL.world0) GL_VERTEX_SHADER <> 0)
    by discriminate.
  split; [exact Hcreated|].
  destruct (FromString_source_text false drv SampleMore.text_with_NUL
              GL_VERTEX_SHADER SampleGL.world0 Hcreated)
    as ((rest & Hlog) & _ & _).
  exists rest. rewrite Hlog. reflexivity.
Defined.

Lemma AddShader_creates_once_witness :
  let drv := SampleGL.stub 3 5 GL_TRUE GL_TRUE in
  ShaderProgram.handle_ ShaderProgram.default = 0 /\
  drv_CreateProgram drv (gl_log SampleGL.world0) <> 0 /\
  gl_log (snd ((self1 <- ShaderProgram.AddShader drv
                            SampleMore.vertex_shader ShaderProgram.default ;;
                ShaderProgram.AddShader drv SampleMore.fragment_shader self1)%glm
               SampleGL.world0))
  = [glCreateProgram; glAttachShader 5 3; glAttachShader 5 4].
Proof.
  intros drv. split; [reflexivity|].
  assert (Hcreated : drv_CreateProgram drv (gl_log SampleGL.world0) <> 0)
    by discriminate.
  split; [exact Hcreated|].
  rewrite (AddShader_creates_once drv SampleMore.vertex_shader
             SampleMore.fragment_shader ShaderProgram.default
             SampleGL.world0 eq_refl Hcreated).
  reflexivity.
Defined.

Lemma AddShader_create_failure_witness :
  let drv := SampleGL.stub 3 0 GL_TRUE GL_TRUE in
  ShaderProgram.handle_ ShaderProgram.default = 0 /\
  drv_CreateProgram drv (gl_log SampleGL.world0) = 0 /\
  exists w',
    ShaderProgram.AddShader drv SampleMore.vertex_shader
      ShaderProgram.default SampleGL.world0
    = (Returned ShaderProgram.default, w') /\
    gl_log w' = [glCreateProgram; glAttachShader 0 3].
Proof.
  intros drv. split; [reflexivity|]. split; [reflexivity|].
  destruct (AddShader_create_failure drv SampleMore.vertex_shader
              SampleMore.fragment_shader ShaderProgram.default
              SampleGL.world0 eq_refl eq_refl)
    as (w' & Hrun & Hlog & _).
  exists w'. split; [exact Hrun | exact Hlog].
Defined.

Lemma handle_is_stable_witness :
  let drv := SampleGL.stub 3 9 GL_TRUE GL_TRUE in
  let ops := [OpAddShader SampleMore.vertex_shader; OpLink; OpUse;
              OpUniform "color"; OpUnuse] in
  logs_failed_links drv /\
  ShaderProgram.handle_ SampleGL.program5 <> 0 /\
  exists self' w',
    run_ops drv ops SampleGL.program5 SampleGL.world0 = (Returned self', w') /\
    ShaderProgram.GetHandle self' = 5.
Proof.
  intros drv ops.
  assert (Hlogs : logs_failed_links drv) by apply stub_logs_failed_links.
  assert (Hnz : ShaderProgram.handle_ SampleGL.program5 <> 0) by discriminate.
  split; [exact Hlogs|]. split; [exact Hnz|].
  destruct (handle_is_stable drv Hlogs ops SampleGL.program5 SampleGL.world0
              Hnz)
    as (self' & w' & _ & Hrun & Hhandle & _).
  exists self', w'. split; [exact Hrun | exact Hhandle].
Defined.

Lemma empty_program_binds_nothing_witness :
  let drv := SampleGL.stub 3 9 GL_TRUE GL_FALSE in
  let ops := [OpLink; OpUse; OpUniform "color"; OpUnuse; OpUse] in
  logs_failed_links drv /\
  forallb (fun op => negb (is_AddShader op)) ops = true /\
  exists self' w',
    run_ops drv ops ShaderProgram.default SampleGL.world0
      = (Returned self', w') /\
    bound_programs (gl_log w') = [0; 0; 0].
Proof.
  intros drv ops.
  assert (Hlogs : logs_failed_links drv) by apply stub_logs_failed_links.
  split; [exact Hlogs|]. split; [reflexivity|].
  destruct (empty_program_binds_nothing drv Hlogs ops SampleGL.world0 eq_refl)
    as (self' & w' & _ & Hrun & _).
  exists self', w'. split; [exact Hrun|].
  revert Hrun. intros [= <- <-]. reflexivity.
Defined.

Lemma SetAttribute_missing_witness :
  let drv := SampleGL.stub 3 5 GL_TRUE GL_TRUE in
  drv_GetAttribLocation drv (gl_log SampleGL.world0) 5 "nowhere" < 0 /\
  exists w',
    ShaderProgram.SetAttribute_float drv "nowhere" 2 16 8 SampleGL.program5
      SampleGL.world0
    = (Returned SampleGL.program5, w') /\
    gl_log w' = [glGetAttribLocation 5 "nowhere";
                 glEnableVertexAttribArray 4294967295;
                 glVertexAttribPointer 4294967295 2 GL_FLOAT GL_FALSE 16 8].
Proof.
  intros drv. split; [reflexivity|].
  destruct (SetAttribute_missing drv "nowhere" 2 16 8 SampleGL.program5
              SampleGL.world0 eq_refl)
    as (w' & Hrun & Hlog & _).
  exists w'. split; [exact Hrun | exact Hlog].
Defined.

Lemma SetUniform_missing_twice_witness :
  let drv := SampleGL.stub 3 5 GL_TRUE GL_TRUE in
  ShaderProgram.uniforms_ SampleGL.program5 !! "nowhere" = None /\
  drv_GetUniformLocation drv (gl_log SampleGL.world0) 5 "nowhere" < 0 /\
  exists self' w',
    (self1 <- ShaderProgram.SetUniform drv "nowhere" (Uniform1i 1)
                SampleGL.program5 ;;
     ShaderProgram.SetUniform drv "nowhere" (Uniform1i 2) self1)%glm
      SampleGL.world0
    = (Returned self', w') /\
    cerr w' = ["[Error] Uniform nowhere doesn't exist in program"].
Proof.
  intros drv. split; [reflexivity|]. split; [reflexivity|].
  destruct (SetUniform_missing_twice drv "nowhere" (Uniform1i 1) (Uniform1i 2)
              SampleGL.program5 SampleGL.world0 eq_refl eq_refl)
    as (self' & w' & Hrun & _ & Hcerr & _).
  exists self', w'. split; [exact Hrun | exact Hcerr].
Defined.

Lemma move_carries_cache_witness :
  let drv := SampleGL.stub 3 5 GL_TRUE GL_TRUE in
  let this' :=
    fst (ShaderProgram.move_assign SampleGL.program5
           SampleMore.program_with_color) in
  ShaderProgram.uniforms_ SampleMore.program_with_color !! "color" = Some 7 /\
  ShaderProgram.uniforms_ SampleMore.program_with_color !! "tint" = None /\
  ShaderProgram.Uniform drv "color" this' SampleGL.world0
    = (Returned (7, this'), SampleGL.world0).
Proof.
  intros drv this'. split; [reflexivity|]. split; [reflexivity|].
  exact (proj1 (move_carries_cache drv "color" "tint" 7 SampleGL.program5
                  SampleMore.program_with_color SampleGL.world0
                  eq_refl eq_refl)).
Defined.

Lemma moves_keep_ownership_exclusive_witness :
  let shaders := [SampleMore.vertex_shader; SampleMore.fragment_shader;
                  Shader.default] in
  let programs := [SampleGL.program5; ShaderProgram.default] in
  let ms := [MoveAssign 0 1; MoveConstruct 0; MoveAssign 2 3] in
  NoDup (filter (fun h => h <> 0) (Shader.handle_ <$> shaders)) /\
  NoDup (filter (fun h => h <> 0) (ShaderProgram.handle_ <$> programs)) /\
  NoDup (filter (fun h => h <> 0)
           (Shader.handle_ <$> run_moves (FA := IEEE.arith) ms shaders)).
Proof.
  intros shaders programs ms.
  assert (Hshaders :
    NoDup (filter (fun h => h <> 0) (Shader.handle_ <$> shaders))).
  { change (NoDup [3; 4]). apply NoDup_cons. split; [|apply NoDup_singleton].
    intros Hin. apply list_elem_of_singleton in Hin. discriminate. }
  assert (Hprograms :
    NoDup (filter (fun h => h <> 0) (ShaderProgram.handle_ <$> programs))).
  { change (NoDup [5]). apply NoDup_singleton. }
  split; [exact Hshaders|]. split; [exact Hprograms|].
  exact (proj1 (moves_keep_ownership_exclusive (FA := IEEE.arith)
                  shaders programs ms Hshaders Hprograms)).
Defined.

Lemma SetTextureRectangle_zero_width_texture_witness :
  texture_ SampleMore.sprite_0x4 = Some SampleMore.texture_0x4 /\
  tex_width SampleMore.texture_0x4 = 0 /\
  exists self',
    SetTextureRectangle Sample.rect_2x2 SampleMore.sprite_0x4 = Some self' /\
    length (vertex_array_ self') = 6%nat.
Proof.
  split; [reflexivity|]. split; [reflexivity|].
  destruct (SetTextureRectangle_zero_width_texture Sample.rect_2x2
              SampleMore.sprite_0x4 SampleMore.texture_0x4 eq_refl eq_refl)
    as (self' & Hrun & Hlen & _).
  exists self'. split; [exact Hrun | exact Hlen].
Defined.

(** ** A lookup made too early *)

Section EarlyLookup.
Context `{FA : FloatArith}.
Variable drv : Driver.
Hypothesis Hlogs : logs_failed_links drv.

(** X16. The cache is not reset when the program object is created: a
    lookup made on a program that has no handle yet asks the driver
    about program 0 and stores the answer; after [AddShader] has created
    the program, a [Link] and any further calls, the same lookup still
    returns that stored answer and never asks about the new program. *)
Theorem early_lookup_is_kept (name : string) (shader : Shader.t)
  (ops : list Op) (w : World) :
  let location := drv_GetUniformLocation drv (gl_log w) 0 name in
  let w1 := world_queried (glGetUniformLocation 0 name) location
              (ShaderProgram.error_uniform name) w in
  let created := drv_CreateProgram drv (gl_log w1) in
  created <> 0 ->
  exists self1 self2 w2,
    ShaderProgram.Uniform drv name ShaderProgram.default w
      = (Returned (location, self1), w1) /\
    run_ops drv (OpAddShader shader :: OpLink :: ops) self1 w1
      = (Returned self2, w2) /\
    ShaderProgram.GetHandle self2 = created /\
    ShaderProgram.Uniform drv name self2 w2 = (Returned (location, self2), w2) /\
    count_calls (is_uniform_query name) w2
      = S (count_calls (is_uniform_query name) w).
Proof.
  intros location w1 created Hcreated.
  pose (self1 := {| ShaderProgram.handle_ := 0;
                    ShaderProgram.uniforms_ :=
                      <[name := location]> (∅ : gmap string GLint) |}).
  assert (Hrun1 : ShaderProgram.Uniform drv name ShaderProgram.default w
                  = (Returned (location, self1), w1)).
  { now rewrite Uniform_miss by apply lookup_empty. }
  assert (Hhit1 : ShaderProgram.uniforms_ self1 !! name = Some location)
    by apply lookup_insert_eq.
  destruct (run_op_handle drv Hlogs (OpAddShader shader) self1 w1)
    as (selfa & wa & Hruna & Hhandlea & _).
  cbn [is_AddShader andb ShaderProgram.handle_ self1 Z.eqb] in Hhandlea.
  fold created in Hhandlea.
  destruct (run_ops_handle drv Hlogs (OpLink :: ops) selfa wa)
    as (self2 & w2 & _ & Hrun2 & Hhandle2 & _).
  { left. now rewrite Hhandlea. }
  assert (Hwhole : run_ops drv (OpAddShader shader :: OpLink :: ops) self1 w1
                   = (Returned self2, w2)).
  { change (OpAddShader shader :: OpLink :: ops)
      with ([OpAddShader shader] ++ OpLink :: ops).
    rewrite run_ops_app. unfold glm_bind at 1. cbn [run_ops].
    unfold glm_bind at 1. rewrite Hruna. exact Hrun2. }
  destruct (run_ops_effect drv Hlogs (OpAddShader shader :: OpLink :: ops)
              self1 w1)
    as (self2' & w2' & Hrun & Hcount & Hkeep).
  rewrite Hwhole in Hrun. injection Hrun as <- <-.
  exists self1, self2, w2.
  split; [exact Hrun1|]. split; [exact Hwhole|].
  split; [unfold ShaderProgram.GetHandle; congruence|].
  split; [apply Uniform_hit, (Hkeep _ _ Hhit1)|].
  rewrite Hcount, Hhit1, Nat.add_0_r.
  erewrite (count_calls_app _ w w1) by reflexivity.
  cbn [List.filter is_uniform_query]. rewrite String.eqb_refl.
  cbn [length]. lia.
Qed.

End EarlyLookup.

Lemma early_lookup_is_kept_witness :
  let drv := SampleGL.stub 3 5 GL_TRUE GL_TRUE in
  logs_failed_links drv /\
  drv_CreateProgram drv [glGetUniformLocation 0 "color"] <> 0 /\
  exists self1 self2 w1 w2,
    ShaderProgram.Uniform drv "color" ShaderProgram.default SampleGL.world0
      = (Returned (0, self1), w1) /\
    run_ops drv [OpAddShader SampleMore.vertex_shader; OpLink; OpUse] self1 w1
      = (Returned self2, w2) /\
    ShaderProgram.GetHandle self2 = 5 /\
    ShaderProgram.Uniform drv "color" self2 w2 = (Returned (0, self2), w2).
Proof.
  intros drv.
  assert (Hcreated : drv_CreateProgram drv [glGetUniformLocation 0 "color"] <> 0)
    by discriminate.
  assert (Hlogs : logs_failed_links drv) by apply stub_logs_failed_links.
  split; [exact Hlogs|]. split; [exact Hcreated|].
  destruct (early_lookup_is_kept drv Hlogs "color" SampleMore.vertex_shader
              [OpUse] SampleGL.world0 Hcreated)
    as (self1 & self2 & w2 & Hrun1 & Hrun2 & Hhandle & Hagain & _).
  eexists self1, self2, _, w2.
  split; [exact Hrun1|]. split; [exact Hrun2|]. split; [exact Hhandle|].
  exact Hagain.
Defined.
